(** * pyrsa.vis.icon: the Icon compositing pipeline and its placement

    A shallow embedding of [pyrsa/vis/icon.py].  Numbers are IEEE binary64
    values (Rocq's primitive floats, the element type of the numpy arrays
    the code builds); numpy arrays are flat row-major buffers; a PIL image
    in mode RGBA is a size and a row-major buffer of four-byte pixels;
    Python exceptions are an error type; the Icon object is a record that
    [set] transforms, exceptions leaving the fields already assigned. *)

From Stdlib Require Import ZArith List Bool String Lia Floats.
From Stdlib Require Uint63.
Import ListNotations.

(** ** Python results *)

Module Py.

Inductive exn : Type :=
| AssertionError (msg : string)
| TypeError (msg : string)
| ValueError (msg : string)
| LibraryError (msg : string).

Inductive result (A : Type) : Type :=
| Ok (a : A)
| Raise (e : exn).

Arguments Ok {A} a.
Arguments Raise {A} e.

Definition bind {A B : Type} (c : result A) (k : A -> result B) : result B :=
  match c with
  | Ok a => k a
  | Raise e => Raise e
  end.

End Py.

Import Py.

Declare Scope py_scope.
Delimit Scope py_scope with py.
Notation "x <- c ;; k" := (Py.bind c (fun x => k))
  (at level 61, c at next level, right associativity) : py_scope.
Local Open Scope py_scope.

(** ** numpy: flat float64 buffers *)

Module Np.

Local Open Scope float_scope.

(** An integer index or size as a float64 (exact below 2^53). *)
Definition of_Z (z : Z) : float := PrimFloat.of_uint63 (Uint63.of_Z z).

Definition of_nat (n : nat) : float := of_Z (Z.of_nat n).

(** [np.pi]. *)
Definition pi : float := 0x1.921fb54442d18p+1.

(** [np.maximum]: a NaN operand wins. *)
Definition maximum (a b : float) : float :=
  if is_nan a then a else if is_nan b then b else if a <? b then b else a.

(** [np.max(a)]: the reduction has no identity, an empty array raises. *)
Definition max (a : list float) : result float :=
  match a with
  | [] => Raise (ValueError "zero-size array to reduction operation maximum which has no identity")
  | v :: t => Ok (fold_left maximum t v)
  end.

(** [np.arange(n) - middle + 0.5]. *)
Definition centered (n : nat) (middle : float) : list float :=
  map (fun i => of_nat i - middle + 0.5) (seq 0 n).

(** [np.meshgrid(a, b)] (indexing 'xy'): two arrays of shape
    [(len b, len a)]; the first repeats [a] along every row, the second
    holds [b[i]] all along row [i]. *)
Definition meshgrid (a b : list float) : list float * list float :=
  (flat_map (fun _ => a) b, flat_map (fun bi => map (fun _ => bi) a) b).

(** Elementwise binary operation on two buffers of one shape. *)
Fixpoint zip_with {A B C : Type} (f : A -> B -> C) (a : list A) (b : list B) : list C :=
  match a, b with
  | x :: a', y :: b' => f x y :: zip_with f a' b'
  | _, _ => []
  end.

(** [a[mask]]: the selected elements, in buffer order. *)
Fixpoint getitem {A : Type} (mask : list bool) (a : list A) : list A :=
  match mask, a with
  | m :: mask', x :: a' => if m then x :: getitem mask' a' else getitem mask' a'
  | _, _ => []
  end.

(** [a[mask] = v] for a scalar [v] and a mask of the shape of [a]. *)
Definition setitem_scalar {A : Type} (mask : list bool) (v : A) (a : list A) : list A :=
  zip_with (fun (m : bool) x => if m then v else x) mask a.

(** [a[mask] = vals] for an array [vals]: one value per selected cell, in
    buffer order; numpy refuses any other number of values. *)
Fixpoint setitem {A : Type} (mask : list bool) (vals a : list A) : result (list A) :=
  match mask, a with
  | [], [] =>
      match vals with
      | [] => Ok []
      | _ :: _ => Raise (ValueError "cannot assign the input values to the selected outputs")
      end
  | true :: mask', _ :: a' =>
      match vals with
      | v :: vals' => r <- setitem mask' vals' a' ;; Ok (v :: r)
      | [] => Raise (ValueError "cannot assign the input values to the selected outputs")
      end
  | false :: mask', x :: a' => r <- setitem mask' vals a' ;; Ok (x :: r)
  | _, _ => Raise (ValueError "boolean index did not match indexed array")
  end.

(** [a.T] of a buffer of shape [(rows, cols)]: shape [(cols, rows)]. *)
Definition transpose {A : Type} (d : A) (rows cols : nat) (a : list A) : list A :=
  flat_map (fun j => map (fun i => nth (i * cols + j) a d) (seq 0 rows)) (seq 0 cols).

(** The integer part of a float64, towards zero (0 for NaN and the
    infinities, where the C conversion is undefined). *)
Definition trunc (f : float) : Z :=
  match Prim2SF f with
  | S754_finite s m e =>
      let a := (if 0 <=? e then Zpos m * 2 ^ e else Zpos m / 2 ^ (- e))%Z in
      if s then (- a)%Z else a
  | _ => 0%Z
  end.

(** [np.uint8(v)]: truncate, keep the low eight bits. *)
Definition uint8 (v : float) : Z := (trunc v mod 256)%Z.

(** Element types a raw pixel array may have.  [np.float] is Python's
    [float], that is [float64]. *)
Inductive dtype : Type :=
| bool_
| uint8_
| uint16
| int32
| float16
| float32
| float64.

Definition dtype_eqb (a b : dtype) : bool :=
  match a, b with
  | bool_, bool_ | uint8_, uint8_ | uint16, uint16 | int32, int32
  | float16, float16 | float32, float32 | float64, float64 => true
  | _, _ => false
  end.

(** [np.issubdtype(d, np.floating)]. *)
Definition is_floating (d : dtype) : bool :=
  match d with
  | float16 | float32 | float64 => true
  | _ => false
  end.

(** An [np.ndarray]: element type, shape and buffer.  The elements are
    held as binary64 values, which represent every value of the element
    types above exactly. *)
Record ndarray : Type := {
  dt : dtype;
  shape : list nat;
  data : list float
}.

(** [np.any(a > 1)]. *)
Definition any_gt_1 (a : ndarray) : bool := existsb (fun v => 1 <? v) (data a).

(** [a / 255]: true division, the result is float64. *)
Definition div255 (a : ndarray) : ndarray :=
  {| dt := float64; shape := shape a; data := map (fun v => v / 255) (data a) |}.

(** [(a * 255).astype(np.uint8)]. *)
Definition times255_uint8 (a : ndarray) : ndarray :=
  {| dt := uint8_; shape := shape a; data := map (fun v => of_Z (uint8 (v * 255))) (data a) |}.

End Np.

(** ** PIL: RGBA images *)

Module PIL.

(** One pixel of an RGBA image, each band a byte. *)
Record rgba : Type := {
  red : Z;
  green : Z;
  blue : Z;
  alpha : Z
}.

(** An image in mode RGBA: [im.size = (width, height)] and the pixels row by
    row, pixel [(x, y)] at index [y * width + x]. *)
Record Image : Type := {
  width : nat;
  height : nat;
  pixels : list rgba
}.

Definition wf (im : Image) : Prop :=
  List.length (pixels im) = height im * width im.

(** [im.getpixel((x, y))]. *)
Definition getpixel (im : Image) (x y : nat) : option rgba :=
  if (x <? width im)%nat && (y <? height im)%nat
  then nth_error (pixels im) (y * width im + x)
  else None.

(** A single-band image (mode L). *)
Record Band : Type := {
  band_width : nat;
  band_height : nat;
  band_values : list Z
}.

(** [im.getchannel('A')]. *)
Definition getchannel_A (im : Image) : Band :=
  {| band_width := width im; band_height := height im;
     band_values := map alpha (pixels im) |}.

(** [np.array(band)]: a uint8 array of shape [(height, width)]. *)
Definition band_array (b : Band) : list Z := band_values b.

(** [PIL.Image.fromarray(a)] for a uint8 array of shape [(rows, cols)]:
    a mode-L image of size [(cols, rows)]. *)
Definition fromarray_L (rows cols : nat) (a : list Z) : Band :=
  {| band_width := cols; band_height := rows; band_values := a |}.

Definition set_alpha (p : rgba) (a : Z) : rgba :=
  {| red := red p; green := green p; blue := blue p; alpha := a |}.

(** [im.putalpha(band)]: the band replaces the alpha band; sizes must agree. *)
Definition putalpha (im : Image) (b : Band) : result Image :=
  if (band_width b =? width im)%nat && (band_height b =? height im)%nat
  then Ok {| width := width im; height := height im;
             pixels := Np.zip_with set_alpha (pixels im) (band_values b) |}
  else Raise (ValueError "images do not match").

(** A colour without an alpha component, as red, green and blue bytes. *)
Definition color : Type := Z * Z * Z.

(** The pixel an RGBA image is filled with for such a colour: alpha 255. *)
Definition opaque (c : color) : rgba :=
  let '(r, g, b) := c in {| red := r; green := g; blue := b; alpha := 255 |}.

(** [PIL.Image.new('RGBA', (w, h), fill)]. *)
Definition new (w h : nat) (fill : rgba) : Image :=
  {| width := w; height := h; pixels := repeat fill (h * w) |}.

(** [dst.paste(src, (left, top))]: inside the box of [src] placed at
    [(left, top)] the pixels of [src] replace those of [dst], all four
    bands; the box is clipped to [dst]. *)
Definition paste (dst src : Image) (left top : Z) : Image :=
  {| width := width dst; height := height dst;
     pixels :=
       map (fun kp : nat * rgba =>
              let x := Z.of_nat (fst kp mod width dst) in
              let y := Z.of_nat (fst kp / width dst) in
              if ((left <=? x) && (x <? left + Z.of_nat (width src)) &&
                  (top <=? y) && (y <? top + Z.of_nat (height src)))%Z
              then nth (Z.to_nat (y - top) * width src + Z.to_nat (x - left))
                       (pixels src) (snd kp)
              else snd kp)
           (combine (seq 0 (List.length (pixels dst))) (pixels dst)) |}.

(** Modelled from the spec: [PIL.ImageOps.expand(im, border, fill)] is a
    library function outside the repository.  The canvas grows by [border]
    pixels on all four sides: a new image of the larger size filled with
    the colour, the original pasted at [(border, border)]. *)
Definition expand (im : Image) (border : Z) (fill : color) : result Image :=
  let w := (Z.of_nat (width im) + 2 * border)%Z in
  let h := (Z.of_nat (height im) + 2 * border)%Z in
  if ((w <? 0) || (h <? 0))%Z
  then Raise (ValueError "Width and height must be >= 0")
  else Ok (paste (new (Z.to_nat w) (Z.to_nat h) (opaque fill)) im border border).

End PIL.

(** ** matplotlib: what a placement adds to an axis *)

Module Mpl.

Inductive artist : Type :=
| AnnotationBbox (image : PIL.Image) (zoom : float) (xy : float * float)
                 (frameon : bool) (pad : float) (zorder : Z)
| Annotation (text : string) (xy : float * float)
             (horizontalalignment verticalalignment : string) (zorder : Z).

(** An axis, as the artists added to it, oldest first. *)
Definition Axes : Type := list artist.

Definition is_image (a : artist) : bool :=
  match a with AnnotationBbox _ _ _ _ _ _ => true | Annotation _ _ _ _ _ => false end.

Definition is_text (a : artist) : bool := negb (is_image a).

Definition zorder_of (a : artist) : Z :=
  match a with AnnotationBbox _ _ _ _ _ z => z | Annotation _ _ _ _ z => z end.

End Mpl.

(** ** matplotlib: what a tick label adds to an axis *)

Module Ticks.

(** The coordinate systems the tick labels name. *)
Inductive coords : Type :=
| data
| axes_fraction
| offset_points.

(** The [arrowprops] dictionary. *)
Record arrowprops : Type := {
  arrowstyle : string;
  shrinkA : Z;
  shrinkB : Z
}.

(** An [AnnotationBbox] with the keywords the tick labels pass ([pad=0.1]
    is the float64 nearest to one tenth). *)
Record bbox : Type := {
  bbox_image : PIL.Image;
  bbox_zoom : float;
  bbox_xy : float * float;
  bbox_xybox : Z * Z;
  bbox_xycoords : coords * coords;
  box_alignment : float * float;
  boxcoords : coords;
  edgecolor : string;
  bbox_arrowprops : arrowprops;
  bbox_pad : float;
  bbox_zorder : Z
}.

(** An annotation with the keywords the tick labels pass. *)
Record text : Type := {
  text_string : string;
  text_xy : float * float;
  xytext : Z * Z;
  text_xycoords : coords * coords;
  textcoords : coords;
  horizontalalignment : string;
  verticalalignment : string;
  text_arrowprops : arrowprops;
  text_zorder : Z
}.

(** What an axis may hold: an artist [plot] added, or one of a tick label. *)
Inductive artist : Type :=
| Placed (a : Mpl.artist)
| Bbox (b : bbox)
| Text (t : text).

Definition Axes : Type := list artist.

Definition is_image (a : artist) : bool :=
  match a with
  | Placed p => Mpl.is_image p
  | Bbox _ => true
  | Text _ => false
  end.

Definition zorder_of (a : artist) : Z :=
  match a with
  | Placed p => Mpl.zorder_of p
  | Bbox b => bbox_zorder b
  | Text t => text_zorder t
  end.

End Ticks.

(** ** The libraries the Icon calls into

    What the code takes from numpy, matplotlib and PIL and the claims do not
    look inside. *)

Record Libs : Type := {
  (** a decoded PIL image of any mode *)
  pil_image : Type;
  (** [np.cos] on one element *)
  np_cos : float -> float;
  (** what the buffer [np.empty] hands back holds at each flat index, in the
      one call of [recompute_final_image] under study; every call gets a
      buffer of its own, so nothing that follows two calls may rest on the
      two buffers holding the same *)
  np_empty : nat -> float;
  (** [cm.get_cmap(cmap)(im)] *)
  get_cmap : string -> Np.ndarray -> result Np.ndarray;
  (** [PIL.Image.fromarray(a)] *)
  fromarray : Np.ndarray -> result pil_image;
  (** [im.convert('RGBA')] *)
  convert_RGBA : pil_image -> result PIL.Image;
  (** [im.resize((w, h), PIL.Image.NEAREST)] *)
  resize_NEAREST : PIL.Image -> nat -> nat -> result PIL.Image;
  (** [AnnotationBbox(...).zorder] *)
  bbox_zorder : Z
}.

(** ** The Icon *)

(** What a caller may pass as [circ_cut]: a string or a number. *)
Inductive circ_cut_value : Type :=
| CcStr (s : string)
| CcNum (v : float).

(** A keyword parameter of [__init__]: left out of the call, or given
    (possibly as [None]). *)
Inductive param (A : Type) : Type :=
| Omitted
| Given (v : option A).

Arguments Omitted {A}.
Arguments Given {A} v.

(** The value a parameter with default [d] is bound to. *)
Definition bound {A : Type} (d : option A) (p : param A) : option A :=
  match p with
  | Omitted => d
  | Given v => v
  end.

Section IconModel.

Variable L : Libs.

Local Open Scope float_scope.

(** The source image: an [np.ndarray], or else taken to be a PIL image. *)
Inductive image_t : Type :=
| Array (a : Np.ndarray)
| Pil (p : pil_image L).

(** The attributes of an Icon object; an attribute not yet assigned reads
    as [None], as [getattr(self, name, None)] has it.  [recomputes] is not
    an attribute: it counts the calls of [recompute_final_image] made on
    the object. *)
Record Icon : Type := {
  image : option image_t;
  string_ : option string;
  col : option PIL.color;
  border_color : option PIL.color;
  cmap : option string;
  border_type : option string;
  border_width : option Z;
  make_square : option bool;
  circ_cut : option float;
  final_image : option PIL.Image;
  recomputes : nat
}.

(** The arguments of one call of [set]; every parameter defaults to [None]. *)
Record set_args : Type := {
  image_arg : option image_t;
  string_arg : option string;
  col_arg : option PIL.color;
  border_color_arg : option PIL.color;
  cmap_arg : option string;
  border_type_arg : option string;
  border_width_arg : option Z;
  make_square_arg : option bool;
  circ_cut_arg : option circ_cut_value
}.

(** The arguments of one call of [Icon(...)]. *)
Record init_args : Type := {
  image_param : param image_t;
  string_param : param string;
  col_param : param PIL.color;
  border_color_param : param PIL.color;
  cmap_param : param string;
  border_type_param : param string;
  border_width_param : param Z;
  make_square_param : param bool;
  circ_cut_param : param circ_cut_value
}.

(** How a call ends: it returns, or raises; either way the object is left
    in some state. *)
Inductive outcome : Type :=
| Returns (self : Icon)
| Raises (e : exn) (self : Icon).

Definition state_of (o : outcome) : Icon :=
  match o with
  | Returns s => s
  | Raises _ s => s
  end.

Definition returned (o : outcome) : bool :=
  match o with
  | Returns _ => true
  | Raises _ _ => false
  end.

(** *** recompute_final_image *)

(** Lines 116-119: the scale heuristic on a raw array. *)
Definition prescale (a : Np.ndarray) : Np.ndarray :=
  if Np.dtype_eqb (Np.dt a) Np.float64 && Np.any_gt_1 a
  then Np.div255 a
  else a.

(** Lines 115-125: from the source image to an RGBA image. *)
Definition to_rgba (cm : option string) (img : image_t) : result PIL.Image :=
  match img with
  | Array a =>
      let im := prescale a in
      im <- match cm with
            | Some name => get_cmap L name im
            | None => Ok im
            end ;;
      im <- fromarray L (Np.times255_uint8 im) ;;
      convert_RGBA L im
  | Pil p => convert_RGBA L p
  end.

(** Lines 126-128. *)
Definition square_step (flag : option bool) (im : PIL.Image) : result PIL.Image :=
  match flag with
  | Some true =>
      let new_size := Nat.max (PIL.width im) (PIL.height im) in
      resize_NEAREST L im new_size new_size
  | _ => Ok im
  end.

(** Lines 131-134, one axis: pixel centres about the middle, scaled by the
    largest magnitude. *)
Definition normalized_axis (n : nat) : result (list float) :=
  let middle := Np.of_nat n / 2 in
  let x := Np.centered n middle in
  m <- Np.max (map abs x) ;;
  Ok (map (fun v => v / m) x).

(** Lines 130-136: [r], of shape [(w, h)]. *)
Definition radius (w h : nat) : result (list float) :=
  x <- normalized_axis w ;;
  y <- normalized_axis h ;;
  let '(yy, xx) := Np.meshgrid y x in
  Ok (map PrimFloat.sqrt
          (Np.zip_with PrimFloat.add (map (fun v => v * v) xx) (map (fun v => v * v) yy))).

(** The raised-cosine expression of lines 142-144 on one element. *)
Definition taper (c r : float) : float :=
  0.5 + 0.5 * np_cos L ((Np.pi * (r - c)) / (1 - c)).

(** Line 140: [val]. *)
Definition taper_band (c : float) (r : list float) : list bool :=
  Np.zip_with andb (map (fun v => c <? v) r) (map (fun v => v <=? 1) r).

(** Line 143: [r[val]], the elements the taper expression is applied to. *)
Definition taper_selection (c : float) (r : list float) : list float :=
  Np.getitem (taper_band c r) r.

(** Lines 137-144: the mask [alpha] for a radius array [r]. *)
Definition window (c : float) (r : list float) : result (list float) :=
  let alpha := map (np_empty L) (seq 0 (List.length r)) in
  let alpha := Np.setitem_scalar (map (fun v => 1 <? v) r) 0 alpha in
  let alpha := Np.setitem_scalar (map (fun v => v <=? c) r) 1 alpha in
  Np.setitem (taper_band c r) (map (taper c) (taper_selection c r)) alpha.

(** Lines 130-144: the mask of an image of size [(w, h)], shape [(w, h)]. *)
Definition circ_cut_mask (w h : nat) (c : float) : result (list float) :=
  r <- radius w h ;;
  window c r.

(** Lines 129-147 for a set [circ_cut]. *)
Definition apply_circ_cut (c : float) (im : PIL.Image) : result PIL.Image :=
  let w := PIL.width im in
  let h := PIL.height im in
  alpha <- circ_cut_mask w h c ;;
  let alpha :=
    Np.zip_with (fun m a => m * Np.of_Z a)
                (Np.transpose 0 w h alpha) (PIL.band_array (PIL.getchannel_A im)) in
  PIL.putalpha im (PIL.fromarray_L h w (map Np.uint8 alpha)).

Definition mask_step (cc : option float) (im : PIL.Image) : result PIL.Image :=
  match cc with
  | Some c => apply_circ_cut c im
  | None => Ok im
  end.

(** Lines 148-153. *)
Definition border_step (bc : option PIL.color) (bt : option string) (bw : option Z)
    (im : PIL.Image) : result PIL.Image :=
  match bc with
  | Some fill =>
      match bt with
      | Some t =>
          if String.eqb t "pad"
          then match bw with
               | Some b => PIL.expand im b fill
               | None => Raise (TypeError "unsupported operand type(s) for +: 'NoneType' and 'int'")
               end
          else Ok im
      | None => Ok im
      end
  | None => Ok im
  end.

(** The image [recompute_final_image] computes from the attributes. *)
Definition recompute (self : Icon) : result (option PIL.Image) :=
  match image self with
  | None => Ok None
  | Some img =>
      im <- to_rgba (cmap self) img ;;
      im <- square_step (make_square self) im ;;
      im <- mask_step (circ_cut self) im ;;
      im <- border_step (border_color self) (border_type self) (border_width self) im ;;
      Ok (Some im)
  end.

Definition with_final_image (self : Icon) (im : option PIL.Image) (n : nat) : Icon :=
  {| image := image self; string_ := string_ self; col := col self;
     border_color := border_color self; cmap := cmap self;
     border_type := border_type self; border_width := border_width self;
     make_square := make_square self; circ_cut := circ_cut self;
     final_image := im; recomputes := n |}.

(** [self.recompute_final_image()]: [final_image] is assigned at the end,
    an exception on the way leaves it as it was. *)
Definition recompute_final_image (self : Icon) : outcome :=
  match recompute self with
  | Ok im => Returns (with_final_image self im (S (recomputes self)))
  | Raise e => Raises e (with_final_image self (final_image self) (S (recomputes self)))
  end.

(** *** set *)

(** [if arg is not None: self.f = arg  else: self.f = getattr(self, 'f', None)]. *)
Definition assign {A : Type} (arg cur : option A) : option A :=
  match arg with
  | Some v => Some v
  | None => cur
  end.

(** Lines 92-102: the value [self.circ_cut] gets, when the branch ends. *)
Definition circ_cut_of (arg : option circ_cut_value) (cur : option float) : result (option float) :=
  match arg with
  | Some (CcStr s) =>
      if String.eqb s "cut" then Ok (Some 1)
      else if String.eqb s "cosine" then Ok (Some 0)
      else Raise (TypeError "'<=' not supported between instances of 'str' and 'int'")
  | Some (CcNum v) =>
      if (v <=? 1) && (0 <=? v) then Ok (Some v)
      else Raise (AssertionError "a numeric circ_cut must be in [0,1]")
  | None => Ok cur
  end.

(** Lines 60-91: the first eight attributes after their assignments. *)
Definition assign_fields (a : set_args) (self : Icon) : Icon :=
  {| image := assign (image_arg a) (image self);
     string_ := assign (string_arg a) (string_ self);
     col := assign (col_arg a) (col self);
     border_color := assign (border_color_arg a) (border_color self);
     cmap := assign (cmap_arg a) (cmap self);
     border_type := assign (border_type_arg a) (border_type self);
     border_width := assign (border_width_arg a) (border_width self);
     make_square := assign (make_square_arg a) (make_square self);
     circ_cut := circ_cut self;
     final_image := final_image self;
     recomputes := recomputes self |}.

Definition with_circ_cut (self : Icon) (c : option float) : Icon :=
  {| image := image self; string_ := string_ self; col := col self;
     border_color := border_color self; cmap := cmap self;
     border_type := border_type self; border_width := border_width self;
     make_square := make_square self; circ_cut := c;
     final_image := final_image self; recomputes := recomputes self |}.

(** [self.set(...)]. *)
Definition set (a : set_args) (self : Icon) : outcome :=
  let self := assign_fields a self in
  match circ_cut_of (circ_cut_arg a) (circ_cut self) with
  | Raise e => Raises e self
  | Ok c => recompute_final_image (with_circ_cut self c)
  end.

(** The arguments of [self.set(circ_cut=v)]. *)
Definition just_circ_cut (v : circ_cut_value) : set_args :=
  {| image_arg := None; string_arg := None; col_arg := None;
     border_color_arg := None; cmap_arg := None; border_type_arg := None;
     border_width_arg := None; make_square_arg := None;
     circ_cut_arg := Some v |}.

(** The arguments [a] with [circ_cut=v] in place of their own. *)
Definition and_circ_cut (a : set_args) (v : circ_cut_value) : set_args :=
  {| image_arg := image_arg a; string_arg := string_arg a; col_arg := col_arg a;
     border_color_arg := border_color_arg a; cmap_arg := cmap_arg a;
     border_type_arg := border_type_arg a; border_width_arg := border_width_arg a;
     make_square_arg := make_square_arg a;
     circ_cut_arg := Some v |}.

(** An object before any attribute is assigned. *)
Definition fresh : Icon :=
  {| image := None; string_ := None; col := None; border_color := None;
     cmap := None; border_type := None; border_width := None;
     make_square := None; circ_cut := None; final_image := None;
     recomputes := 0 |}.

(** The call of [set] that [__init__] makes, defaults filled in. *)
Definition init_call (a : init_args) : set_args :=
  {| image_arg := bound None (image_param a);
     string_arg := bound None (string_param a);
     col_arg := bound None (col_param a);
     border_color_arg := bound None (border_color_param a);
     cmap_arg := bound None (cmap_param a);
     border_type_arg := bound (Some "pad"%string) (border_type_param a);
     border_width_arg := bound (Some 2%Z) (border_width_param a);
     make_square_arg := bound (Some false) (make_square_param a);
     circ_cut_arg := bound None (circ_cut_param a) |}.

(** [Icon(...)]. *)
Definition init (a : init_args) : outcome := set (init_call a) fresh.

(** *** plot *)

(** [self.plot(x, y, ax, size)], [gca] being the axis [plt.gca()] gives:
    the axis drawn on, with what the call added.  (The closing test on
    [border_color], lines 189-190, does nothing.) *)
Definition plot (self : Icon) (x y : float) (ax : option Mpl.Axes) (size : option float)
    (gca : Mpl.Axes) : Mpl.Axes :=
  let ax := match ax with
            | None => gca
            | Some a => a
            end in
  let '(ax, zorder) :=
    match final_image self with
    | Some im =>
        let zoom := match size with
                    | None => 1
                    | Some s => s
                    end in
        let ab := Mpl.AnnotationBbox im zoom (x, y) false 0 (bbox_zorder L) in
        (ax ++ [ab], Mpl.zorder_of ab)
    | None => (ax, 0%Z)
    end in
  match string_ self with
  | Some s => ax ++ [Mpl.Annotation s (x, y) "center" "center" (zorder + 1)]
  | None => ax
  end.

(** *** x_tick_label and y_tick_label *)

(** [self.x_tick_label(x, size, offset, ax)]; [offset] is 7 when left out. *)
Definition x_tick_label (self : Icon) (x size : float) (offset : Z)
    (ax : option Ticks.Axes) (gca : Ticks.Axes) : Ticks.Axes :=
  let ax := match ax with
            | None => gca
            | Some a => a
            end in
  let '(ax, zorder) :=
    match final_image self with
    | Some im =>
        let ab :=
          {| Ticks.bbox_image := im; Ticks.bbox_zoom := size;
             Ticks.bbox_xy := (x, 0);
             Ticks.bbox_xybox := (0, - offset)%Z;
             Ticks.bbox_xycoords := (Ticks.data, Ticks.axes_fraction);
             Ticks.box_alignment := (0.5, 1);
             Ticks.boxcoords := Ticks.offset_points;
             Ticks.edgecolor := "none";
             Ticks.bbox_arrowprops :=
               {| Ticks.arrowstyle := "-"; Ticks.shrinkA := 0; Ticks.shrinkB := 1 |};
             Ticks.bbox_pad := 0x1.999999999999ap-4;
             Ticks.bbox_zorder := bbox_zorder L |} in
        (ax ++ [Ticks.Bbox ab], Ticks.bbox_zorder ab)
    | None => (ax, 0%Z)
    end in
  match string_ self with
  | Some s =>
      ax ++ [Ticks.Text
               {| Ticks.text_string := s;
                  Ticks.text_xy := (x, 0);
                  Ticks.xytext := (0, - offset)%Z;
                  Ticks.text_xycoords := (Ticks.data, Ticks.axes_fraction);
                  Ticks.textcoords := Ticks.offset_points;
                  Ticks.horizontalalignment := "center";
                  Ticks.verticalalignment := "top";
                  Ticks.text_arrowprops :=
                    {| Ticks.arrowstyle := "-"; Ticks.shrinkA := 0; Ticks.shrinkB := 1 |};
                  Ticks.text_zorder := (zorder + 1)%Z |}]
  | None => ax
  end.

(** [self.y_tick_label(y, size, offset, ax)]; [offset] is 7 when left out. *)
Definition y_tick_label (self : Icon) (y size : float) (offset : Z)
    (ax : option Ticks.Axes) (gca : Ticks.Axes) : Ticks.Axes :=
  let ax := match ax with
            | None => gca
            | Some a => a
            end in
  let '(ax, zorder) :=
    match final_image self with
    | Some im =>
        let ab :=
          {| Ticks.bbox_image := im; Ticks.bbox_zoom := size;
             Ticks.bbox_xy := (0, y);
             Ticks.bbox_xybox := (- offset, 0)%Z;
             Ticks.bbox_xycoords := (Ticks.axes_fraction, Ticks.data);
             Ticks.box_alignment := (1, 0.5);
             Ticks.boxcoords := Ticks.offset_points;
             Ticks.edgecolor := "none";
             Ticks.bbox_arrowprops :=
               {| Ticks.arrowstyle := "-"; Ticks.shrinkA := 0; Ticks.shrinkB := 1 |};
             Ticks.bbox_pad := 0x1.999999999999ap-4;
             Ticks.bbox_zorder := bbox_zorder L |} in
        (ax ++ [Ticks.Bbox ab], Ticks.bbox_zorder ab)
    | None => (ax, 0%Z)
    end in
  match string_ self with
  | Some s =>
      ax ++ [Ticks.Text
               {| Ticks.text_string := s;
                  Ticks.text_xy := (0, y);
                  Ticks.xytext := (- offset, 0)%Z;
                  Ticks.text_xycoords := (Ticks.axes_fraction, Ticks.data);
                  Ticks.textcoords := Ticks.offset_points;
                  Ticks.horizontalalignment := "right";
                  Ticks.verticalalignment := "center";
                  Ticks.text_arrowprops :=
                    {| Ticks.arrowstyle := "-"; Ticks.shrinkA := 0; Ticks.shrinkB := 1 |};
                  Ticks.text_zorder := (zorder + 1)%Z |}]
  | None => ax
  end.

End IconModel.

Arguments Array {L} a.
Arguments Pil {L} p.
Arguments image {L} i.
Arguments string_ {L} i.
Arguments col {L} i.
Arguments border_color {L} i.
Arguments cmap {L} i.
Arguments border_type {L} i.
Arguments border_width {L} i.
Arguments make_square {L} i.
Arguments circ_cut {L} i.
Arguments final_image {L} i.
Arguments recomputes {L} i.
Arguments image_arg {L} s.
Arguments string_arg {L} s.
Arguments col_arg {L} s.
Arguments border_color_arg {L} s.
Arguments cmap_arg {L} s.
Arguments border_type_arg {L} s.
Arguments border_width_arg {L} s.
Arguments make_square_arg {L} s.
Arguments circ_cut_arg {L} s.
Arguments image_param {L} i.
Arguments string_param {L} i.
Arguments col_param {L} i.
Arguments border_color_param {L} i.
Arguments cmap_param {L} i.
Arguments border_type_param {L} i.
Arguments border_width_param {L} i.
Arguments make_square_param {L} i.
Arguments circ_cut_param {L} i.
Arguments Returns {L} self.
Arguments Raises {L} e self.
Arguments state_of {L} o.
Arguments returned {L} o.
Arguments recompute {L} self.
Arguments recompute_final_image {L} self.
Arguments assign_fields {L} a self.
Arguments set {L} a self.
Arguments init {L} a.
Arguments plot {L} self x y ax size gca.
Arguments x_tick_label {L} self x size offset ax gca.
Arguments y_tick_label {L} self y size offset ax gca.

(** ** Stand-ins for the libraries, to run the model on concrete inputs *)

Module Demo.

Local Open Scope float_scope.

(** A cosine by its Taylor polynomial of degree 12 (enough on [0, pi]). *)
Definition cos_poly (x : float) : float :=
  let x2 := x * x in
  1 - x2 / 2 * (1 - x2 / 12 * (1 - x2 / 30 * (1 - x2 / 56 * (1 - x2 / 90 * (1 - x2 / 132))))).

(** A two-dimensional uint8 array read as opaque grey levels. *)
Definition grey (a : Np.ndarray) : result PIL.Image :=
  match Np.shape a with
  | [h; w] =>
      Ok {| PIL.width := w; PIL.height := h;
            PIL.pixels :=
              map (fun v => let g := Np.trunc v in
                            {| PIL.red := g; PIL.green := g; PIL.blue := g; PIL.alpha := 255 |})
                  (Np.data a) |}
  | _ => Raise (TypeError "Cannot handle this data type")
  end.

(** Nearest-neighbour sampling by integer scaling of the indices. *)
Definition nearest (im : PIL.Image) (w h : nat) : result PIL.Image :=
  Ok {| PIL.width := w; PIL.height := h;
        PIL.pixels :=
          flat_map (fun y =>
            map (fun x =>
                   nth ((y * PIL.height im / h) * PIL.width im + x * PIL.width im / w)%nat
                       (PIL.pixels im)
                       {| PIL.red := 0; PIL.green := 0; PIL.blue := 0; PIL.alpha := 0 |})
                (seq 0 w))
          (seq 0 h) |}.

(** The libraries, with [junk] in every cell of a buffer from [np.empty]. *)
Definition libs (junk : float) : Libs :=
  {| pil_image := PIL.Image;
     np_cos := cos_poly;
     np_empty := fun _ => junk;
     get_cmap := fun _ a => Ok a;
     fromarray := grey;
     convert_RGBA := fun im => Ok im;
     resize_NEAREST := nearest;
     bbox_zorder := 3 |}.

Definition px (r g b a : Z) : PIL.rgba :=
  {| PIL.red := r; PIL.green := g; PIL.blue := b; PIL.alpha := a |}.

(** A white and a black opaque image of one pixel, and a white image of
    four by four pixels at half opacity. *)
Definition white1 : PIL.Image :=
  {| PIL.width := 1; PIL.height := 1; PIL.pixels := [px 255 255 255 255] |}.

Definition black1 : PIL.Image :=
  {| PIL.width := 1; PIL.height := 1; PIL.pixels := [px 0 0 0 255] |}.

Definition white4 : PIL.Image :=
  {| PIL.width := 4; PIL.height := 4; PIL.pixels := repeat (px 255 255 255 128) 16 |}.

(** A float32 array holding the single value 2. *)
Definition two_f32 : Np.ndarray :=
  {| Np.dt := Np.float32; Np.shape := [1; 1]%nat; Np.data := [2] |}.

(** A float64 array holding 0 and 51. *)
Definition bytes_f64 : Np.ndarray :=
  {| Np.dt := Np.float64; Np.shape := [1; 2]%nat; Np.data := [0; 51] |}.

Definition all_omitted (L : Libs) : init_args L :=
  {| image_param := Omitted; string_param := Omitted; col_param := Omitted;
     border_color_param := Omitted; cmap_param := Omitted;
     border_type_param := Omitted; border_width_param := Omitted;
     make_square_param := Omitted; circ_cut_param := Omitted |}.

End Demo.

(** * Properties *)

(** ** The order of float64 comparisons

    [<?] and [<=?] are the IEEE comparisons: false as soon as an operand is
    NaN, and a total order on the other values, read off here from a
    lexicographic key (sign class, exponent, mantissa). *)

Module Float64.

Local Open Scope float_scope.

Definition key (f : spec_float) : Z * Z * Z :=
  match f with
  | S754_zero _ => (0, 0, 0)
  | S754_infinity s => (if s then -2 else 2, 0, 0)
  | S754_nan => (0, 0, 0)
  | S754_finite s m e => if s then (-1, - e, - Zpos m) else (1, e, Zpos m)
  end%Z.

Definition nanSF (f : spec_float) : bool :=
  match f with
  | S754_nan => true
  | _ => false
  end.

Definition lex_lt (a b : Z * Z * Z) : Prop :=
  (fst (fst a) < fst (fst b) \/
   (fst (fst a) = fst (fst b) /\
    (snd (fst a) < snd (fst b) \/ (snd (fst a) = snd (fst b) /\ snd a < snd b))))%Z.

Definition numbers (a b : spec_float) (R : Prop) : Prop :=
  nanSF a = false /\ nanSF b = false /\ R.

Ltac lex := unfold lex_lt in *; cbn [fst snd] in *; lia.

Lemma lex_lt_irrefl a : ~ lex_lt a a.
Proof. destruct a as [[a1 a2] a3]. lex. Qed.

Lemma lex_lt_trans a b c : lex_lt a b -> lex_lt b c -> lex_lt a c.
Proof. destruct a as [[a1 a2] a3], b as [[b1 b2] b3], c as [[c1 c2] c3]. lex. Qed.

Lemma lex_lt_total a b : lex_lt a b \/ a = b \/ lex_lt b a.
Proof.
  destruct a as [[a1 a2] a3], b as [[b1 b2] b3].
  destruct (Z.lt_total a1 b1) as [?|[?|?]]; destruct (Z.lt_total a2 b2) as [?|[?|?]];
    destruct (Z.lt_total a3 b3) as [?|[?|?]]; subst; auto;
    (left; lex) || (right; right; lex).
Qed.

Lemma SFcompare_key a b :
  match SFcompare a b with
  | None => nanSF a = true \/ nanSF b = true
  | Some Lt => numbers a b (lex_lt (key a) (key b))
  | Some Eq => numbers a b (key a = key b)
  | Some Gt => numbers a b (lex_lt (key b) (key a))
  end.
Proof.
  unfold numbers.
  destruct a as [sa|sa| |sa ma ea], b as [sb|sb| |sb mb eb]; cbn;
    try destruct sa; try destruct sb; cbn; auto; try (repeat split; lex).
  all: change (Pos.compare_cont Eq ma mb) with (Pos.compare ma mb).
  all: destruct (Z.compare_spec ea eb); destruct (Pos.compare_spec ma mb); cbn;
    repeat split; subst; try reflexivity; lex.
Qed.

Lemma ltb_iff a b :
  (a <? b) = true <->
  numbers (Prim2SF a) (Prim2SF b) (lex_lt (key (Prim2SF a)) (key (Prim2SF b))).
Proof.
  rewrite FloatAxioms.ltb_spec. unfold SFltb.
  pose proof (SFcompare_key (Prim2SF a) (Prim2SF b)) as H.
  destruct (SFcompare (Prim2SF a) (Prim2SF b)) as [[]|]; unfold numbers in *.
  - split; [discriminate|]. intros (_ & _ & L). destruct H as (_ & _ & K).
    rewrite K in L. destruct (lex_lt_irrefl _ L).
  - split; auto.
  - split; [discriminate|]. intros (_ & _ & L). destruct H as (_ & _ & K).
    destruct (lex_lt_irrefl _ (lex_lt_trans _ _ _ L K)).
  - split; [discriminate|]. intros (Na & Nb & _). destruct H; congruence.
Qed.

Lemma leb_iff a b :
  (a <=? b) = true <->
  numbers (Prim2SF a) (Prim2SF b)
    (lex_lt (key (Prim2SF a)) (key (Prim2SF b)) \/ key (Prim2SF a) = key (Prim2SF b)).
Proof.
  rewrite FloatAxioms.leb_spec. unfold SFleb.
  pose proof (SFcompare_key (Prim2SF a) (Prim2SF b)) as H.
  destruct (SFcompare (Prim2SF a) (Prim2SF b)) as [[]|]; unfold numbers in *.
  - split; auto. intros _. tauto.
  - split; auto. intros _. tauto.
  - split; [discriminate|]. intros (_ & _ & [L|E]); destruct H as (_ & _ & K).
    + destruct (lex_lt_irrefl _ (lex_lt_trans _ _ _ L K)).
    + rewrite E in K. destruct (lex_lt_irrefl _ K).
  - split; [discriminate|]. intros (Na & Nb & _). destruct H; congruence.
Qed.

(** [a < b] and [c <= a] leave no room for [b <= c]. *)
Lemma ltb_leb_trans a b c : (a <? b) = true -> (c <=? a) = true -> (b <=? c) = false.
Proof.
  intros H1 H2. destruct (b <=? c) eqn:E; [|reflexivity]. exfalso.
  apply ltb_iff in H1. apply leb_iff in H2, E.
  destruct H1 as (_ & _ & L1), H2 as (_ & _ & L2), E as (_ & _ & L3).
  assert (lex_lt (key (Prim2SF c)) (key (Prim2SF b))) as L4.
  { destruct L2 as [L2|L2]; [exact (lex_lt_trans _ _ _ L2 L1) | rewrite L2; exact L1]. }
  destruct L3 as [L3|L3].
  - exact (lex_lt_irrefl _ (lex_lt_trans _ _ _ L4 L3)).
  - rewrite L3 in L4. exact (lex_lt_irrefl _ L4).
Qed.

Lemma ltb_leb_false a b : (a <? b) = true -> (b <=? a) = false.
Proof.
  intros H. apply (ltb_leb_trans a b a H).
  apply leb_iff. apply ltb_iff in H. destruct H as (Na & _ & _).
  repeat split; auto.
Qed.

Lemma leb_ltb_false a b : (a <=? b) = true -> (b <? a) = false.
Proof.
  intros H. destruct (b <? a) eqn:E; [|reflexivity].
  apply ltb_leb_false in E. congruence.
Qed.

Lemma not_nan_SF a : is_nan a = false -> nanSF (Prim2SF a) = false.
Proof.
  unfold is_nan. rewrite negb_false_iff, FloatAxioms.eqb_spec. unfold SFeqb.
  destruct (Prim2SF a); cbn; congruence.
Qed.

(** Two numbers always compare one way or the other. *)
Lemma leb_total a b :
  is_nan a = false -> is_nan b = false -> (a <=? b) = true \/ (b <? a) = true.
Proof.
  intros Ha Hb. apply not_nan_SF in Ha, Hb.
  rewrite leb_iff, ltb_iff. unfold numbers.
  destruct (lex_lt_total (key (Prim2SF a)) (key (Prim2SF b))) as [?|[?|?]]; auto 6.
Qed.

Lemma leb_not_nan_l a b : (a <=? b) = true -> is_nan a = false.
Proof.
  intros H. apply leb_iff in H. destruct H as (Na & _ & _).
  unfold is_nan. rewrite negb_false_iff, FloatAxioms.eqb_spec. unfold SFeqb.
  destruct (Prim2SF a) as [s|s| |s m e]; cbn in *; try congruence.
  - destruct s; reflexivity.
  - destruct s; cbn; rewrite Z.compare_refl; change (Pos.compare_cont Eq m m) with (Pos.compare m m);
      rewrite Pos.compare_refl; reflexivity.
Qed.

End Float64.

(** ** Buffers: indexing through the numpy operations *)

Module NpFacts.

Lemma zip_with_length {A B C : Type} (f : A -> B -> C) a b :
  List.length a = List.length b -> List.length (Np.zip_with f a b) = List.length a.
Proof.
  revert b. induction a as [|x a IH]; intros [|y b] H; cbn in *; try congruence.
  f_equal. apply IH. congruence.
Qed.

Lemma nth_error_zip_with {A B C : Type} (f : A -> B -> C) a b k x y :
  nth_error a k = Some x -> nth_error b k = Some y ->
  nth_error (Np.zip_with f a b) k = Some (f x y).
Proof.
  revert b k. induction a as [|x0 a IH]; intros [|y0 b] [|k] Ha Hb; cbn in *;
    try discriminate.
  - congruence.
  - eauto.
Qed.

Lemma zip_with_maps {A B C D : Type} (f : B -> C -> D) (g : A -> B) (h : A -> C) a :
  Np.zip_with f (map g a) (map h a) = map (fun x => f (g x) (h x)) a.
Proof. induction a as [|x a IH]; cbn; congruence. Qed.

Lemma zip_with_map_l {A B C D : Type} (f : B -> C -> D) (g : A -> B) a b :
  Np.zip_with f (map g a) b = Np.zip_with (fun x y => f (g x) y) a b.
Proof.
  revert b. induction a as [|x a IH]; intros [|y b]; cbn; try reflexivity.
  f_equal. apply IH.
Qed.

Lemma zip_with_nested {A B : Type} (f g : A -> B -> B) a b :
  Np.zip_with g a (Np.zip_with f a b) = Np.zip_with (fun x y => g x (f x y)) a b.
Proof.
  revert b. induction a as [|x a IH]; intros [|y b]; cbn; try reflexivity.
  f_equal. apply IH.
Qed.

(** A masked assignment of values computed from the selected elements is an
    elementwise update. *)
Lemma setitem_getitem {A B : Type} (p : A -> bool) (f : A -> B) r a :
  List.length a = List.length r ->
  Np.setitem (map p r) (map f (Np.getitem (map p r) r)) a =
  Ok (Np.zip_with (fun v x => if p v then f v else x) r a).
Proof.
  revert a. induction r as [|v r IH]; intros [|x a] H; cbn in *; try discriminate.
  - reflexivity.
  - injection H as H. destruct (p v); cbn; rewrite (IH a H); reflexivity.
Qed.

(** Rows of one length laid end to end: element [j] of row [i]. *)
Lemma nth_error_flat_map_rows {A B : Type} (f : A -> list B) (n : nat) l i j :
  (forall a, List.length (f a) = n) -> j < n ->
  nth_error (flat_map f l) (i * n + j) =
  match nth_error l i with
  | Some a => nth_error (f a) j
  | None => None
  end.
Proof.
  intros Hlen Hj. revert i. induction l as [|a l IH]; intros i; cbn.
  - destruct i; destruct (_ + j); reflexivity.
  - destruct i as [|i]; cbn.
    + rewrite nth_error_app1 by (rewrite Hlen; exact Hj). reflexivity.
    + rewrite nth_error_app2 by (rewrite Hlen; lia).
      rewrite Hlen. replace (n + i * n + j - n) with (i * n + j) by lia. apply IH.
Qed.

Lemma flat_map_rows_length {A B : Type} (f : A -> list B) (n : nat) l :
  (forall a, List.length (f a) = n) -> List.length (flat_map f l) = List.length l * n.
Proof.
  intros Hlen. induction l as [|a l IH]; cbn; [reflexivity|].
  rewrite length_app, Hlen, IH. reflexivity.
Qed.

Lemma nth_error_seq_lt start len k : k < len -> nth_error (seq start len) k = Some (start + k).
Proof.
  intros H. rewrite nth_error_nth' with (d := 0) by (rewrite length_seq; exact H).
  rewrite seq_nth by exact H. reflexivity.
Qed.

Lemma nth_error_transpose {A : Type} (d : A) rows cols a i j :
  i < rows -> j < cols ->
  nth_error (Np.transpose d rows cols a) (j * rows + i) = Some (nth (i * cols + j) a d).
Proof.
  intros Hi Hj. unfold Np.transpose.
  rewrite nth_error_flat_map_rows with (n := rows).
  - rewrite nth_error_seq_lt by exact Hj. cbn.
    rewrite nth_error_map, nth_error_seq_lt by exact Hi. reflexivity.
  - intros. rewrite length_map, length_seq. reflexivity.
  - exact Hi.
Qed.

Lemma meshgrid_fst a b i j x :
  i < List.length b -> nth_error a j = Some x ->
  nth_error (fst (Np.meshgrid a b)) (i * List.length a + j) = Some x.
Proof.
  intros Hi Hj. cbn.
  assert (j < List.length a) as Hlt by (apply nth_error_Some; congruence).
  rewrite nth_error_flat_map_rows with (n := List.length a); auto.
  destruct (nth_error b i) eqn:E; [exact Hj|].
  apply nth_error_None in E. lia.
Qed.

Lemma meshgrid_snd a b i j y :
  nth_error b i = Some y -> j < List.length a ->
  nth_error (snd (Np.meshgrid a b)) (i * List.length a + j) = Some y.
Proof.
  intros Hi Hj. cbn.
  rewrite nth_error_flat_map_rows with (n := List.length a); auto.
  - rewrite Hi. rewrite nth_error_map.
    destruct (nth_error a j) eqn:E; [reflexivity|].
    apply nth_error_None in E. lia.
  - intros. apply length_map.
Qed.

Lemma meshgrid_lengths a b :
  List.length (fst (Np.meshgrid a b)) = List.length b * List.length a /\
  List.length (snd (Np.meshgrid a b)) = List.length b * List.length a.
Proof.
  cbn. split; apply flat_map_rows_length; intros; [reflexivity | apply length_map].
Qed.

End NpFacts.

(** ** The radial mask *)

Module MaskFacts.

Local Open Scope float_scope.

(** What lines 137-144 leave in one cell of [alpha], [junk] being what
    [np.empty] left there: the three assignments read from the last one. *)
Definition cell (L : Libs) (c v junk : float) : float :=
  if (c <? v) && (v <=? 1) then taper L c v
  else if v <=? c then 1
  else if 1 <? v then 0
  else junk.

Lemma taper_band_map c r :
  taper_band c r = map (fun v => (c <? v) && (v <=? 1)) r.
Proof. unfold taper_band. apply NpFacts.zip_with_maps. Qed.

Lemma window_cells (L : Libs) c r :
  window L c r = Ok (Np.zip_with (cell L c) r (map (np_empty L) (seq 0 (List.length r)))).
Proof.
  unfold window, taper_selection, Np.setitem_scalar.
  rewrite taper_band_map, NpFacts.setitem_getitem.
  - rewrite !NpFacts.zip_with_map_l, !NpFacts.zip_with_nested. reflexivity.
  - rewrite !NpFacts.zip_with_length; rewrite ?length_map, ?length_seq; try reflexivity.
    rewrite NpFacts.zip_with_length; rewrite ?length_map, ?length_seq; reflexivity.
Qed.

Lemma getitem_none {A : Type} (p : A -> bool) r :
  (forall v, p v = false) -> Np.getitem (map p r) r = [].
Proof.
  intros H. induction r as [|v r IH]; cbn; [reflexivity|].
  rewrite H. exact IH.
Qed.

(** With [circ_cut = 1] nothing is selected for the taper. *)
Lemma taper_selection_one r : taper_selection 1 r = [].
Proof.
  unfold taper_selection. rewrite taper_band_map. apply getitem_none.
  intros v. destruct (1 <? v) eqn:E; [|reflexivity].
  rewrite (Float64.ltb_leb_false _ _ E). reflexivity.
Qed.

Lemma normalized_axis_ok n :
  (0 < n)%nat -> exists x, normalized_axis n = Ok x /\ List.length x = n.
Proof.
  intros Hn. unfold normalized_axis, Np.centered.
  destruct n as [|n]; [lia|].
  rewrite <- cons_seq. cbn [map Np.max Py.bind].
  eexists. split; [reflexivity|].
  cbn [List.length]. rewrite !length_map, length_seq. reflexivity.
Qed.

Lemma radius_cells w h x y :
  normalized_axis w = Ok x -> normalized_axis h = Ok y ->
  exists r,
    radius w h = Ok r /\
    List.length r = (List.length x * List.length y)%nat /\
    forall i j xi yj,
      nth_error x i = Some xi -> nth_error y j = Some yj ->
      nth_error r (i * List.length y + j) = Some (PrimFloat.sqrt (xi * xi + yj * yj)).
Proof.
  intros Hx Hy. unfold radius. rewrite Hx, Hy. cbn [Py.bind].
  destruct (Np.meshgrid y x) as [yy xx] eqn:M.
  eexists. split; [reflexivity|]. split.
  - rewrite length_map, NpFacts.zip_with_length; rewrite !length_map.
    + replace xx with (snd (Np.meshgrid y x)) by (rewrite M; reflexivity).
      apply NpFacts.meshgrid_lengths.
    + replace xx with (snd (Np.meshgrid y x)) by (rewrite M; reflexivity).
      replace yy with (fst (Np.meshgrid y x)) by (rewrite M; reflexivity).
      destruct (NpFacts.meshgrid_lengths y x) as [-> ->]. reflexivity.
  - intros i j xi yj Hi Hj.
    assert (i < List.length x)%nat as Li by (apply nth_error_Some; congruence).
    assert (j < List.length y)%nat as Lj by (apply nth_error_Some; congruence).
    rewrite nth_error_map.
    rewrite NpFacts.nth_error_zip_with with (x := xi * xi) (y := yj * yj); [reflexivity| |].
    + rewrite nth_error_map.
      replace xx with (snd (Np.meshgrid y x)) by (rewrite M; reflexivity).
      rewrite (NpFacts.meshgrid_snd y x i j xi Hi Lj). reflexivity.
    + rewrite nth_error_map.
      replace yy with (fst (Np.meshgrid y x)) by (rewrite M; reflexivity).
      rewrite (NpFacts.meshgrid_fst y x i j yj Li Hj). reflexivity.
Qed.

(** The mask of an image with both sides positive, cell by cell. *)
Lemma circ_cut_mask_cells (L : Libs) w h c :
  (0 < w)%nat -> (0 < h)%nat ->
  exists x y r mask,
    normalized_axis w = Ok x /\ normalized_axis h = Ok y /\
    radius w h = Ok r /\ circ_cut_mask L w h c = Ok mask /\
    List.length mask = (w * h)%nat /\
    window L c r = Ok mask /\
    forall i j, (i < w)%nat -> (j < h)%nat ->
      exists xi yj,
        nth_error x i = Some xi /\ nth_error y j = Some yj /\
        nth_error r (i * h + j) = Some (PrimFloat.sqrt (xi * xi + yj * yj)) /\
        nth_error mask (i * h + j) =
          Some (cell L c (PrimFloat.sqrt (xi * xi + yj * yj)) (np_empty L (i * h + j))).
Proof.
  intros Hw Hh.
  destruct (normalized_axis_ok w Hw) as (x & Hx & Lx).
  destruct (normalized_axis_ok h Hh) as (y & Hy & Ly).
  destruct (radius_cells w h x y Hx Hy) as (r & Hr & Lr & Hcells).
  rewrite Lx, Ly in Lr. rewrite Ly in Hcells.
  exists x, y, r. eexists. unfold circ_cut_mask. rewrite Hr. cbn [Py.bind].
  rewrite window_cells.
  repeat split; try reflexivity; try assumption.
  - rewrite NpFacts.zip_with_length; rewrite ?length_map, ?length_seq; auto.
  - intros i j Hi Hj.
    destruct (nth_error x i) as [xi|] eqn:Ex;
      [|apply nth_error_None in Ex; lia].
    destruct (nth_error y j) as [yj|] eqn:Ey;
      [|apply nth_error_None in Ey; lia].
    exists xi, yj. repeat split; auto.
    assert (i * h + j < w * h)%nat as Hk by nia.
    apply NpFacts.nth_error_zip_with; auto.
    rewrite nth_error_map, NpFacts.nth_error_seq_lt by (rewrite Lr; exact Hk).
    reflexivity.
Qed.

End MaskFacts.

(** ** The pipeline, step by step *)

Local Open Scope float_scope.

(** The axis normalisation sends the outermost pixel centres to -1 and 1. *)
Example normalized_axis_4 :
  normalized_axis 4 = Ok [-1; -0x1.5555555555555p-2; 0x1.5555555555555p-2; 1].
Proof. vm_compute. reflexivity. Qed.

Example normalized_axis_5 : normalized_axis 5 = Ok [-1; -0.5; 0; 0.5; 1].
Proof. vm_compute. reflexivity. Qed.

(** So it is for every side from 2 to 64 pixels. *)
Example normalized_axis_extremes :
  forallb (fun n => match normalized_axis n with
                    | Ok x => (hd 0 x =? -1) && (last x 0 =? 1)
                    | Raise _ => false
                    end)
          (seq 2 63) = true.
Proof. vm_compute. reflexivity. Qed.

(** For sides from 2 to 12 pixels every radius is a number. *)
Example radius_numbers :
  forallb (fun w =>
             forallb (fun h => match radius w h with
                               | Ok r => forallb (fun v => negb (is_nan v)) r
                               | Raise _ => false
                               end)
                     (seq 2 11))
          (seq 2 11) = true.
Proof. vm_compute. reflexivity. Qed.

(** The call [Icon(image=white, circ_cut='cut')], the image being one opaque
    white pixel. *)
Definition one_pixel_cut : init_args (Demo.libs 0) :=
  {| image_param := Given (Some (@Pil (Demo.libs 0) Demo.white1)); string_param := Omitted;
     col_param := Omitted; border_color_param := Omitted; cmap_param := Omitted;
     border_type_param := Omitted; border_width_param := Omitted;
     make_square_param := Omitted; circ_cut_param := Given (Some (CcStr "cut")) |}.

(** C1, at an image of one pixel: its only pixel sits at the centre, where
    the claim has radius 0 and so the mask value 1 for every [circ_cut];
    the code divides the coordinate 0 by the largest magnitude 0 (lines 132
    and 134), the coordinate is NaN and not plus or minus 1, the radius is
    NaN, no assignment of lines 138-141 writes the cell, and the mask holds
    what [np.empty] left, for [circ_cut = 1] as for [circ_cut = 0]: with a
    buffer of zeros [Icon(image, circ_cut='cut')] turns the opaque white
    pixel fully transparent.  On three pixels a side the same lines give
    the axis -1, 0, 1 and, for [circ_cut = 1], the mask the claim
    describes: 0 at the four corners, 1 elsewhere. *)
Theorem cut_mask_of_one_pixel_image (L : Libs) :
  (exists x0 r0,
     normalized_axis 1 = Ok [x0] /\ is_nan x0 = true /\
     radius 1 1 = Ok [r0] /\ is_nan r0 = true /\
     (r0 <=? 1) = false /\ (1 <? r0) = false) /\
  circ_cut_mask L 1 1 1 = Ok [np_empty L 0] /\
  circ_cut_mask L 1 1 0 = Ok [np_empty L 0] /\
  returned (init one_pixel_cut) = true /\
  circ_cut (state_of (init one_pixel_cut)) = Some 1 /\
  final_image (state_of (init one_pixel_cut)) =
    Some {| PIL.width := 1; PIL.height := 1;
            PIL.pixels := [{| PIL.red := 255; PIL.green := 255; PIL.blue := 255;
                              PIL.alpha := 0 |}] |} /\
  normalized_axis 3 = Ok [-1; 0; 1] /\
  circ_cut_mask L 3 3 1 = Ok [0; 1; 0; 1; 1; 1; 0; 1; 0].
Proof.
  split.
  - do 2 eexists. split; [vm_compute; reflexivity|].
    repeat split; vm_compute; reflexivity.
  - repeat split; vm_compute; reflexivity.
Qed.

Arguments and_circ_cut {L} a v.

(** *** The cached image and the attributes *)

Lemma recompute_with_final_image (L : Libs) (s : Icon L) im n :
  recompute (with_final_image L s im n) = recompute s.
Proof. reflexivity. Qed.

Lemma recompute_final_image_returns (L : Libs) (s s' : Icon L) :
  recompute_final_image s = Returns s' -> recompute s' = Ok (final_image s').
Proof.
  unfold recompute_final_image. destruct (recompute s) as [im|e] eqn:E; [|discriminate].
  intros H. injection H as <-. rewrite recompute_with_final_image. exact E.
Qed.

Lemma set_returns (L : Libs) (a : set_args L) (s s' : Icon L) :
  set a s = Returns s' -> recompute s' = Ok (final_image s').
Proof.
  unfold set. destruct (circ_cut_of _ _) as [c|e]; [|discriminate].
  apply recompute_final_image_returns.
Qed.

(** An icon showing a white pixel, and the call
    [set(image=black, circ_cut=1.5)] on it. *)
Definition white_icon : outcome (Demo.libs 0) :=
  init {| image_param := Given (Some (@Pil (Demo.libs 0) Demo.white1)); string_param := Omitted;
          col_param := Omitted; border_color_param := Omitted; cmap_param := Omitted;
          border_type_param := Omitted; border_width_param := Omitted;
          make_square_param := Omitted; circ_cut_param := Omitted |}.

Definition black_and_bad_cut : set_args (Demo.libs 0) :=
  {| image_arg := Some (@Pil (Demo.libs 0) Demo.black1); string_arg := None; col_arg := None;
     border_color_arg := None; cmap_arg := None; border_type_arg := None;
     border_width_arg := None; make_square_arg := None;
     circ_cut_arg := Some (CcNum 1.5) |}.

(** C2, as stated, fails: on an icon showing a white pixel,
    [set(image=black, circ_cut=1.5)] raises after it has assigned the new
    image; the cached image is still the white one, while the attributes
    now give the black one. *)
Lemma stale_final_image_after_failed_set :
  let s := state_of (set black_and_bad_cut (state_of white_icon)) in
  returned white_icon = true /\
  returned (set black_and_bad_cut (state_of white_icon)) = false /\
  image s = Some (@Pil (Demo.libs 0) Demo.black1) /\
  final_image s = Some Demo.white1 /\
  recompute s = Ok (Some Demo.black1) /\
  recompute s <> Ok (final_image s).
Proof.
  cbv zeta. repeat split; try (vm_compute; reflexivity).
  vm_compute. discriminate.
Qed.

(** C2, amended. After a construction or a call of [set] that returns, the
    cached final image is the image [recompute_final_image] computes from
    the attributes the object then has. *)
Theorem final_image_consistent_on_return (L : Libs) (a : set_args L) (ia : init_args L)
    (s s' : Icon L) :
  set a s = Returns s' \/ init ia = Returns s' ->
  recompute s' = Ok (final_image s').
Proof.
  intros [H|H].
  - exact (set_returns L a s s' H).
  - exact (set_returns L _ _ s' H).
Qed.

Lemma final_image_consistent_on_return_witness :
  recompute (state_of white_icon) = Ok (final_image (state_of white_icon)).
Proof.
  apply (final_image_consistent_on_return (Demo.libs 0) black_and_bad_cut
           {| image_param := Given (Some (@Pil (Demo.libs 0) Demo.white1)); string_param := Omitted;
              col_param := Omitted; border_color_param := Omitted; cmap_param := Omitted;
              border_type_param := Omitted; border_width_param := Omitted;
              make_square_param := Omitted; circ_cut_param := Omitted |}
           (fresh (Demo.libs 0)) (state_of white_icon)).
  right. reflexivity.
Defined.

(** *** Validation of circ_cut *)

Lemma assign_fields_no_args (L : Libs) (v : circ_cut_value) (s : Icon L) :
  assign_fields (just_circ_cut L v) s = s.
Proof. destruct s. reflexivity. Qed.

(** C3. A call of [set] whose [circ_cut] is a number below 0 or above 1
    raises the assertion error before [recompute_final_image] is called:
    the cached final image, the number of recomputations and [circ_cut]
    are what they were; and when [circ_cut] is the only argument the whole
    object is. *)
Theorem circ_cut_out_of_range_rejected (L : Libs) (a : set_args L) (s : Icon L) (v : float) :
  circ_cut_arg a = Some (CcNum v) ->
  (v <? 0) = true \/ (1 <? v) = true ->
  exists s',
    set a s = Raises (AssertionError "a numeric circ_cut must be in [0,1]") s' /\
    final_image s' = final_image s /\
    recomputes s' = recomputes s /\
    circ_cut s' = circ_cut s /\
    (a = just_circ_cut L (CcNum v) -> s' = s).
Proof.
  intros Ha Hv. exists (assign_fields a s).
  assert (((v <=? 1) && (0 <=? v)) = false) as Hfail.
  { destruct Hv as [Hv|Hv].
    - rewrite (Float64.ltb_leb_false _ _ Hv). apply andb_false_r.
    - rewrite (Float64.ltb_leb_false _ _ Hv). reflexivity. }
  unfold set. rewrite Ha. cbn [circ_cut_of]. rewrite Hfail.
  repeat split.
  intros ->. apply assign_fields_no_args.
Qed.

Lemma circ_cut_out_of_range_rejected_witness :
  exists s',
    set (just_circ_cut (Demo.libs 0) (CcNum 1.5)) (state_of white_icon) =
      Raises (AssertionError "a numeric circ_cut must be in [0,1]") s' /\
    final_image s' = final_image (state_of white_icon) /\
    recomputes s' = recomputes (state_of white_icon) /\
    circ_cut s' = circ_cut (state_of white_icon) /\
    (just_circ_cut (Demo.libs 0) (CcNum 1.5) = just_circ_cut (Demo.libs 0) (CcNum 1.5) ->
     s' = state_of white_icon).
Proof.
  apply (circ_cut_out_of_range_rejected (Demo.libs 0)
           (just_circ_cut (Demo.libs 0) (CcNum 1.5)) (state_of white_icon) 1.5).
  - reflexivity.
  - right. reflexivity.
Defined.


(** *** Defaults of the constructor *)

(** C9, as stated, fails: [Icon()] has [border_type = 'pad'],
    [border_width = 2] and [make_square = False], not [None]. *)
Lemma constructor_defaults_not_none :
  let s := state_of (init (Demo.all_omitted (Demo.libs 0))) in
  border_type s = Some "pad"%string /\ border_width s = Some 2%Z /\
  make_square s = Some false /\
  border_type s <> None /\ border_width s <> None /\ make_square s <> None.
Proof. cbv zeta. repeat split; try reflexivity; discriminate. Qed.

Lemma set_keeps_fields (L : Libs) (a : set_args L) (s : Icon L) :
  let s' := state_of (set a s) in
  image s' = image (assign_fields a s) /\
  string_ s' = string_ (assign_fields a s) /\
  col s' = col (assign_fields a s) /\
  border_color s' = border_color (assign_fields a s) /\
  cmap s' = cmap (assign_fields a s) /\
  border_type s' = border_type (assign_fields a s) /\
  border_width s' = border_width (assign_fields a s) /\
  make_square s' = make_square (assign_fields a s).
Proof.
  cbv zeta. unfold set. destruct (circ_cut_of _ _) as [c|e]; cbn [state_of].
  - unfold recompute_final_image. destruct (recompute _); cbn; repeat split.
  - repeat split.
Qed.

(** C9, amended. In the object a constructor call leaves, an omitted
    [image], [string], [col], [border_color], [cmap] or [circ_cut] is
    [None]; an omitted [border_type] is ['pad'], an omitted [border_width]
    is 2 and an omitted [make_square] is [False]. *)
Theorem constructor_defaults (L : Libs) (a : init_args L) :
  let s := state_of (init a) in
  (image_param a = Omitted -> image s = None) /\
  (string_param a = Omitted -> string_ s = None) /\
  (col_param a = Omitted -> col s = None) /\
  (border_color_param a = Omitted -> border_color s = None) /\
  (cmap_param a = Omitted -> cmap s = None) /\
  (circ_cut_param a = Omitted -> circ_cut s = None) /\
  (border_type_param a = Omitted -> border_type s = Some "pad"%string) /\
  (border_width_param a = Omitted -> border_width s = Some 2%Z) /\
  (make_square_param a = Omitted -> make_square s = Some false).
Proof.
  cbv zeta. unfold init.
  destruct (set_keeps_fields L (init_call L a) (fresh L))
    as (Hi & Hs & Hc & Hbc & Hcm & Hbt & Hbw & Hms).
  rewrite Hi, Hs, Hc, Hbc, Hcm, Hbt, Hbw, Hms. cbn.
  repeat split; try (intros ->; reflexivity).
  intros E. unfold set. cbn. rewrite E. cbn.
  unfold recompute_final_image. destruct (recompute _); reflexivity.
Qed.

Lemma constructor_defaults_witness :
  border_type (state_of (init (Demo.all_omitted (Demo.libs 0)))) = Some "pad"%string.
Proof.
  apply (constructor_defaults (Demo.libs 0) (Demo.all_omitted (Demo.libs 0))).
  reflexivity.
Defined.

(** *** The scale heuristic on raw arrays *)

(** C4, as stated, fails: a float32 array holding 2 is of floating-point
    type with a value above 1, yet it is used as it is, not divided. *)
Lemma float32_not_rescaled :
  Np.is_floating (Np.dt Demo.two_f32) = true /\
  Np.any_gt_1 Demo.two_f32 = true /\
  prescale Demo.two_f32 = Demo.two_f32 /\
  prescale Demo.two_f32 <> Np.div255 Demo.two_f32.
Proof.
  repeat split. vm_compute. discriminate.
Qed.

(** C4, amended. A raw array whose element type is float64 (what
    [np.float] names) and which holds a value above 1 is divided by 255,
    every element; any other array, among them the float16 and float32
    ones, is used as it is. *)
Theorem prescale_float64_only (a : Np.ndarray) :
  (Np.dt a = Np.float64 -> (exists v, In v (Np.data a) /\ (1 <? v) = true) ->
   prescale a = Np.div255 a /\
   Np.data (prescale a) = map (fun v => v / 255) (Np.data a) /\
   Np.shape (prescale a) = Np.shape a) /\
  (Np.dt a <> Np.float64 \/ (forall v, In v (Np.data a) -> (1 <? v) = false) ->
   prescale a = a).
Proof.
  unfold prescale, Np.any_gt_1. split.
  - intros Hd Hex. rewrite Hd. cbn [Np.dtype_eqb andb].
    assert (existsb (fun v => 1 <? v) (Np.data a) = true) as E
      by (apply existsb_exists; exact Hex).
    rewrite E. repeat split.
  - intros [Hd|Hall].
    + destruct (Np.dt a); try reflexivity. congruence.
    + destruct (existsb _ _) eqn:E; [|rewrite andb_false_r; reflexivity].
      apply existsb_exists in E. destruct E as (v & Hin & Hv).
      rewrite (Hall v Hin) in Hv. discriminate.
Qed.

Lemma prescale_float64_only_witness :
  prescale Demo.bytes_f64 = Np.div255 Demo.bytes_f64 /\
  Np.data (prescale Demo.bytes_f64) = map (fun v => v / 255) (Np.data Demo.bytes_f64) /\
  Np.shape (prescale Demo.bytes_f64) = Np.shape Demo.bytes_f64.
Proof.
  apply (prescale_float64_only Demo.bytes_f64).
  - reflexivity.
  - exists 51. split; [right; left; reflexivity | reflexivity].
Defined.

(** *** Placement *)

(** C8. [plot] on an icon with neither final image nor string leaves the
    axis as it is; with a string only it adds one text annotation, at
    z-order 1, and no image; with both it adds the image and then the text,
    the text one z-order above the image. *)
Theorem plot_stacking (L : Libs) (self : Icon L) (x y : float) (size : option float)
    (ax : option Mpl.Axes) (gca : Mpl.Axes) :
  let target := match ax with None => gca | Some a => a end in
  (final_image self = None -> string_ self = None ->
   plot self x y ax size gca = target) /\
  (forall s, final_image self = None -> string_ self = Some s ->
   exists t, plot self x y ax size gca = target ++ [t] /\
             Mpl.is_text t = true /\ Mpl.is_image t = false /\
             t = Mpl.Annotation s (x, y) "center" "center" 1) /\
  (forall im s, final_image self = Some im -> string_ self = Some s ->
   exists i t, plot self x y ax size gca = target ++ [i; t] /\
               Mpl.is_image i = true /\ Mpl.is_text t = true /\
               Mpl.zorder_of t = (Mpl.zorder_of i + 1)%Z /\
               (Mpl.zorder_of i < Mpl.zorder_of t)%Z).
Proof.
  cbv zeta. unfold plot. repeat split.
  - intros Him Hs. rewrite Him, Hs. reflexivity.
  - intros s Him Hs. rewrite Him, Hs. eexists. repeat split.
  - intros im s Him Hs. rewrite Him, Hs. cbn [Mpl.zorder_of].
    do 2 eexists. rewrite <- app_assoc.
    split; [reflexivity|]. cbn [Mpl.zorder_of Mpl.is_image Mpl.is_text negb].
    split; [reflexivity|]. split; [reflexivity|]. split; [reflexivity|]. lia.
Qed.

Lemma plot_stacking_witness :
  plot (fresh (Demo.libs 0)) 0 0 None None [] = [].
Proof.
  pose proof (plot_stacking (Demo.libs 0) (fresh (Demo.libs 0)) 0 0 None None []) as H.
  cbv zeta in H. apply (proj1 H); reflexivity.
Defined.

(** *** Images: pixels through paste, expand and putalpha *)

Module PILFacts.

Lemma nth_error_combine_seq {A : Type} (l : list A) start k :
  nth_error (combine (seq start (List.length l)) l) k =
  option_map (fun p => ((start + k)%nat, p)) (nth_error l k).
Proof.
  revert start k. induction l as [|p l IH]; intros start [|k]; cbn; try reflexivity.
  - rewrite Nat.add_0_r. reflexivity.
  - rewrite IH. replace (S start + k)%nat with (start + S k)%nat by lia. reflexivity.
Qed.

Lemma index_mod (w x y : nat) : (x < w)%nat -> ((y * w + x) mod w = x)%nat.
Proof.
  intros H. rewrite Nat.add_comm, Nat.Div0.mod_add. apply Nat.mod_small. exact H.
Qed.

Lemma index_div (w x y : nat) : (x < w)%nat -> ((y * w + x) / w = y)%nat.
Proof.
  intros H. rewrite Nat.add_comm, Nat.div_add by lia.
  rewrite Nat.div_small by exact H. reflexivity.
Qed.

Lemma getpixel_Some (im : PIL.Image) x y p :
  PIL.getpixel im x y = Some p <->
  (x < PIL.width im)%nat /\ (y < PIL.height im)%nat /\
  nth_error (PIL.pixels im) (y * PIL.width im + x) = Some p.
Proof.
  unfold PIL.getpixel.
  destruct (Nat.ltb_spec x (PIL.width im)); destruct (Nat.ltb_spec y (PIL.height im));
    cbn [andb]; split; try discriminate; try tauto; try (intros (? & ? & ?); lia).
Qed.

Lemma getpixel_in_range (im : PIL.Image) x y :
  PIL.wf im -> (x < PIL.width im)%nat -> (y < PIL.height im)%nat ->
  exists p, PIL.getpixel im x y = Some p.
Proof.
  intros Hwf Hx Hy.
  destruct (nth_error (PIL.pixels im) (y * PIL.width im + x)) as [p|] eqn:E.
  - exists p. apply getpixel_Some. auto.
  - apply nth_error_None in E. unfold PIL.wf in Hwf. nia.
Qed.

(** What [paste] leaves at a pixel of the destination. *)
Lemma paste_getpixel (dst src : PIL.Image) (left top : Z) x y p :
  PIL.getpixel dst x y = Some p ->
  PIL.getpixel (PIL.paste dst src left top) x y =
  Some (if ((left <=? Z.of_nat x) && (Z.of_nat x <? left + Z.of_nat (PIL.width src)) &&
            (top <=? Z.of_nat y) && (Z.of_nat y <? top + Z.of_nat (PIL.height src)))%Z
        then nth (Z.to_nat (Z.of_nat y - top) * PIL.width src + Z.to_nat (Z.of_nat x - left))
                 (PIL.pixels src) p
        else p).
Proof.
  intros H. apply getpixel_Some in H. destruct H as (Hx & Hy & Hp).
  apply getpixel_Some. cbn [PIL.paste PIL.width PIL.height PIL.pixels].
  split; [exact Hx|]. split; [exact Hy|].
  rewrite nth_error_map, nth_error_combine_seq, Hp. cbn [option_map fst snd Nat.add].
  rewrite index_mod, index_div by exact Hx. reflexivity.
Qed.

Lemma new_getpixel w h fill x y :
  (x < w)%nat -> (y < h)%nat -> PIL.getpixel (PIL.new w h fill) x y = Some fill.
Proof.
  intros Hx Hy. apply getpixel_Some. cbn. repeat split; auto.
  apply nth_error_repeat. nia.
Qed.

(** [expand] with a border that is not negative. *)
Lemma expand_spec (im : PIL.Image) (b : Z) (fill : PIL.color) :
  (0 <= b)%Z ->
  exists out,
    PIL.expand im b fill = Ok out /\
    PIL.width out = (PIL.width im + 2 * Z.to_nat b)%nat /\
    PIL.height out = (PIL.height im + 2 * Z.to_nat b)%nat /\
    PIL.wf out /\
    (forall x y, (x < PIL.width out)%nat -> (y < PIL.height out)%nat ->
       (x < Z.to_nat b \/ Z.to_nat b + PIL.width im <= x \/
        y < Z.to_nat b \/ Z.to_nat b + PIL.height im <= y)%nat ->
       PIL.getpixel out x y = Some (PIL.opaque fill)) /\
    (forall x y p, PIL.getpixel im x y = Some p ->
       PIL.getpixel out (x + Z.to_nat b) (y + Z.to_nat b) = Some p).
Proof.
  intros Hb. unfold PIL.expand.
  destruct ((_ <? 0) || (_ <? 0))%Z eqn:E.
  { apply orb_true_iff in E. destruct E as [E|E]; apply Z.ltb_lt in E; lia. }
  eexists. split; [reflexivity|].
  cbn [PIL.paste PIL.new PIL.width PIL.height].
  split; [lia|]. split; [lia|]. split; [|split].
  - unfold PIL.wf. cbn [PIL.paste PIL.new PIL.width PIL.height PIL.pixels].
    rewrite length_map, length_combine, length_seq, repeat_length. lia.
  - intros x y Hx Hy Hring.
    rewrite paste_getpixel with (p := PIL.opaque fill) by (apply new_getpixel; assumption).
    f_equal.
    destruct ((b <=? Z.of_nat x) && (Z.of_nat x <? b + Z.of_nat (PIL.width im)) &&
              (b <=? Z.of_nat y) && (Z.of_nat y <? b + Z.of_nat (PIL.height im)))%Z eqn:B;
      [|reflexivity].
    rewrite !andb_true_iff, !Z.leb_le, !Z.ltb_lt in B. lia.
  - intros x y p Hp. apply getpixel_Some in Hp. destruct Hp as (Hx & Hy & Hp).
    rewrite paste_getpixel with (p := PIL.opaque fill) by (apply new_getpixel; lia).
    f_equal.
    destruct ((b <=? Z.of_nat (x + Z.to_nat b)) &&
              (Z.of_nat (x + Z.to_nat b) <? b + Z.of_nat (PIL.width im)) &&
              (b <=? Z.of_nat (y + Z.to_nat b)) &&
              (Z.of_nat (y + Z.to_nat b) <? b + Z.of_nat (PIL.height im)))%Z eqn:B.
    + replace (Z.to_nat (Z.of_nat (y + Z.to_nat b) - b)) with y by lia.
      replace (Z.to_nat (Z.of_nat (x + Z.to_nat b) - b)) with x by lia.
      apply nth_error_nth. exact Hp.
    + rewrite !andb_false_iff, !Z.leb_gt, !Z.ltb_ge in B. lia.
Qed.

End PILFacts.

(** *** The border *)

(** C5. The border step leaves the image alone unless [border_color] is set
    and [border_type] is ['pad']; then, for a border colour [(r, g, b)] and
    a width [n] that is not negative, it returns an image [2 * n] wider and
    [2 * n] higher, in which every pixel of the ring has red [r], green
    [g], blue [b] and alpha 255, and every pixel of the original, moved by
    [(n, n)], is what it was, alpha included. *)
Theorem border_pad (bc : option PIL.color) (bt : option string) (bw : option Z)
    (im : PIL.Image) :
  (bc = None \/ bt <> Some "pad"%string -> border_step bc bt bw im = Ok im) /\
  (forall r g b n,
     bc = Some (r, g, b) -> bt = Some "pad"%string -> bw = Some n -> (0 <= n)%Z ->
     exists out,
       border_step bc bt bw im = Ok out /\
       Z.of_nat (PIL.width out) = (Z.of_nat (PIL.width im) + 2 * n)%Z /\
       Z.of_nat (PIL.height out) = (Z.of_nat (PIL.height im) + 2 * n)%Z /\
       (forall x y, (x < PIL.width out)%nat -> (y < PIL.height out)%nat ->
          (x < Z.to_nat n \/ Z.to_nat n + PIL.width im <= x \/
           y < Z.to_nat n \/ Z.to_nat n + PIL.height im <= y)%nat ->
          exists q, PIL.getpixel out x y = Some q /\
                    PIL.red q = r /\ PIL.green q = g /\ PIL.blue q = b /\
                    PIL.alpha q = 255%Z) /\
       (forall x y p, PIL.getpixel im x y = Some p ->
          PIL.getpixel out (x + Z.to_nat n) (y + Z.to_nat n) = Some p)).
Proof.
  split.
  - intros [->|Hbt]; [reflexivity|].
    unfold border_step. destruct bc as [fill|]; [|reflexivity].
    destruct bt as [t|]; [|reflexivity].
    destruct (String.eqb_spec t "pad"); [congruence | reflexivity].
  - intros r g b n -> -> -> Hn. cbn [border_step String.eqb Ascii.eqb Bool.eqb].
    destruct (PILFacts.expand_spec im n (r, g, b) Hn)
      as (out & Hout & Hw & Hh & _ & Hring & Horig).
    exists out. split; [exact Hout|]. split; [lia|]. split; [lia|]. split.
    + intros x y Hx Hy Hr. eexists. split; [apply Hring; assumption|].
      repeat split.
    + exact Horig.
Qed.

Lemma border_pad_witness :
  exists out,
    border_step (Some (1, 2, 3)%Z) (Some "pad"%string) (Some 2%Z) Demo.white4 = Ok out /\
    Z.of_nat (PIL.width out) = (Z.of_nat (PIL.width Demo.white4) + 2 * 2)%Z /\
    Z.of_nat (PIL.height out) = (Z.of_nat (PIL.height Demo.white4) + 2 * 2)%Z /\
    (forall x y, (x < PIL.width out)%nat -> (y < PIL.height out)%nat ->
       (x < Z.to_nat 2 \/ Z.to_nat 2 + PIL.width Demo.white4 <= x \/
        y < Z.to_nat 2 \/ Z.to_nat 2 + PIL.height Demo.white4 <= y)%nat ->
       exists q, PIL.getpixel out x y = Some q /\
                 PIL.red q = 1%Z /\ PIL.green q = 2%Z /\ PIL.blue q = 3%Z /\
                 PIL.alpha q = 255%Z) /\
    (forall x y p, PIL.getpixel Demo.white4 x y = Some p ->
       PIL.getpixel out (x + Z.to_nat 2) (y + Z.to_nat 2) = Some p).
Proof.
  apply (proj2 (border_pad (Some (1, 2, 3)%Z) (Some "pad"%string) (Some 2%Z) Demo.white4)
               1%Z 2%Z 3%Z 2%Z);
    [reflexivity | reflexivity | reflexivity | lia].
Defined.

(** *** The mask and the alpha band *)

Lemma uint8_one_times (a : Z) : (0 <= a < 256)%Z -> Np.uint8 (1 * Np.of_Z a) = a.
Proof.
  intros Ha.
  assert (forallb (fun k => Z.eqb (Np.uint8 (1 * Np.of_Z (Z.of_nat k))) (Z.of_nat k))
                  (seq 0 256) = true) as H by (vm_compute; reflexivity).
  pose proof (proj1 (forallb_forall _ _) H (Z.to_nat a)) as Hk.
  cbv beta in Hk. rewrite Z2Nat.id in Hk by lia.
  apply Z.eqb_eq, Hk, in_seq. lia.
Qed.

Lemma uint8_zero_times (a : Z) : (0 <= a < 256)%Z -> Np.uint8 (0 * Np.of_Z a) = 0%Z.
Proof.
  intros Ha.
  assert (forallb (fun k => Z.eqb (Np.uint8 (0 * Np.of_Z (Z.of_nat k))) 0)
                  (seq 0 256) = true) as H by (vm_compute; reflexivity).
  pose proof (proj1 (forallb_forall _ _) H (Z.to_nat a)) as Hk.
  cbv beta in Hk. rewrite Z2Nat.id in Hk by lia.
  apply Z.eqb_eq, Hk, in_seq. lia.
Qed.

(** C6. Masking an image (sides positive, one pixel per position) leaves
    its size and its colour bands alone and makes the alpha of each pixel
    [(x, y)] the mask value there times the alpha the pixel had, stored as
    a byte ([np.uint8]: the product without its fraction); so a mask value
    of 1 leaves a byte alpha as it was and a mask value of 0 makes it 0.
    With [circ_cut] unset the image is untouched. *)
Theorem mask_multiplies_alpha (L : Libs) (c : float) (im : PIL.Image) :
  PIL.wf im -> (0 < PIL.width im)%nat -> (0 < PIL.height im)%nat ->
  mask_step L None im = Ok im /\
  exists mask out,
    circ_cut_mask L (PIL.width im) (PIL.height im) c = Ok mask /\
    mask_step L (Some c) im = Ok out /\
    PIL.width out = PIL.width im /\ PIL.height out = PIL.height im /\
    forall x y, (x < PIL.width im)%nat -> (y < PIL.height im)%nat ->
      exists p m q,
        PIL.getpixel im x y = Some p /\
        nth_error mask (x * PIL.height im + y) = Some m /\
        PIL.getpixel out x y = Some q /\
        PIL.red q = PIL.red p /\ PIL.green q = PIL.green p /\ PIL.blue q = PIL.blue p /\
        PIL.alpha q = Np.uint8 (m * Np.of_Z (PIL.alpha p)) /\
        ((0 <= PIL.alpha p < 256)%Z -> m = 1 -> PIL.alpha q = PIL.alpha p) /\
        ((0 <= PIL.alpha p < 256)%Z -> m = 0 -> PIL.alpha q = 0%Z).
Proof.
  intros Hwf Hw Hh. split; [reflexivity|].
  destruct (MaskFacts.circ_cut_mask_cells L _ _ c Hw Hh)
    as (_ & _ & _ & mask & _ & _ & _ & Hm & Hlen & _ & _).
  exists mask. cbn [mask_step]. unfold apply_circ_cut. rewrite Hm. cbn [Py.bind].
  unfold PIL.putalpha.
  cbn [PIL.fromarray_L PIL.band_width PIL.band_height PIL.band_values].
  rewrite !Nat.eqb_refl. cbn [andb].
  eexists. split; [reflexivity|]. split; [reflexivity|].
  split; [reflexivity|]. split; [reflexivity|].
  intros x y Hx Hy.
  destruct (PILFacts.getpixel_in_range im x y Hwf Hx Hy) as (p & Hp).
  destruct (nth_error mask (x * PIL.height im + y)) as [m|] eqn:Em;
    [|apply nth_error_None in Em; nia].
  exists p, m, (PIL.set_alpha p (Np.uint8 (m * Np.of_Z (PIL.alpha p)))).
  split; [exact Hp|]. split; [reflexivity|].
  split.
  { apply PILFacts.getpixel_Some in Hp. destruct Hp as (_ & _ & Hp).
    apply PILFacts.getpixel_Some. cbn [PIL.width PIL.height PIL.pixels].
    split; [exact Hx|]. split; [exact Hy|].
    apply NpFacts.nth_error_zip_with; [exact Hp|].
    rewrite nth_error_map.
    rewrite NpFacts.nth_error_zip_with
      with (x := m) (y := PIL.alpha p); [reflexivity| |].
    - rewrite NpFacts.nth_error_transpose by assumption.
      f_equal. apply nth_error_nth. exact Em.
    - unfold PIL.band_array, PIL.getchannel_A. cbn [PIL.band_values].
      rewrite nth_error_map, Hp. reflexivity. }
  cbn [PIL.set_alpha PIL.red PIL.green PIL.blue PIL.alpha].
  split; [reflexivity|]. split; [reflexivity|]. split; [reflexivity|].
  split; [reflexivity|]. split.
  - intros Ha ->. apply uint8_one_times, Ha.
  - intros Ha ->. apply uint8_zero_times, Ha.
Qed.

Lemma mask_multiplies_alpha_witness :
  mask_step (Demo.libs 0) None Demo.white4 = Ok Demo.white4 /\
  exists mask out,
    circ_cut_mask (Demo.libs 0) (PIL.width Demo.white4) (PIL.height Demo.white4) 0.5 = Ok mask /\
    mask_step (Demo.libs 0) (Some 0.5) Demo.white4 = Ok out /\
    PIL.width out = PIL.width Demo.white4 /\ PIL.height out = PIL.height Demo.white4 /\
    forall x y, (x < PIL.width Demo.white4)%nat -> (y < PIL.height Demo.white4)%nat ->
      exists p m q,
        PIL.getpixel Demo.white4 x y = Some p /\
        nth_error mask (x * PIL.height Demo.white4 + y) = Some m /\
        PIL.getpixel out x y = Some q /\
        PIL.red q = PIL.red p /\ PIL.green q = PIL.green p /\ PIL.blue q = PIL.blue p /\
        PIL.alpha q = Np.uint8 (m * Np.of_Z (PIL.alpha p)) /\
        ((0 <= PIL.alpha p < 256)%Z -> m = 1 -> PIL.alpha q = PIL.alpha p) /\
        ((0 <= PIL.alpha p < 256)%Z -> m = 0 -> PIL.alpha q = 0%Z).
Proof.
  apply (mask_multiplies_alpha (Demo.libs 0) 0.5 Demo.white4);
    [reflexivity | cbn; lia | cbn; lia].
Defined.

(** A pixel at half opacity under a mask value of 1 and of 0. *)
Example masked_white4 :
  option_map (fun out => (PIL.getpixel out 1 1, PIL.getpixel out 0 0))
    (match mask_step (Demo.libs 0) (Some 0.5) Demo.white4 with
     | Ok out => Some out
     | Raise _ => None
     end) =
  Some (Some (Demo.px 255 255 255 128), Some (Demo.px 255 255 255 0)).
Proof. vm_compute. reflexivity. Qed.

(** *** Coverage of the mask buffer *)

(** For a number [v] and [c <= 1], exactly one of the three selections of
    lines 138-140 takes the cell. *)
Lemma mask_conditions_partition (c v : float) :
  (c <=? 1) = true -> is_nan v = false ->
  ((1 <? v) = true /\ (v <=? c) = false /\ ((c <? v) && (v <=? 1)) = false) \/
  ((1 <? v) = false /\ (v <=? c) = true /\ ((c <? v) && (v <=? 1)) = false) \/
  ((1 <? v) = false /\ (v <=? c) = false /\ ((c <? v) && (v <=? 1)) = true).
Proof.
  intros Hc Hv.
  pose proof (Float64.leb_not_nan_l _ _ Hc) as Nc.
  destruct (1 <? v) eqn:E1.
  - left. rewrite (Float64.ltb_leb_trans _ _ _ E1 Hc), (Float64.ltb_leb_false _ _ E1).
    rewrite andb_false_r. auto.
  - right. destruct (v <=? c) eqn:E2.
    + left. rewrite (Float64.leb_ltb_false _ _ E2). auto.
    + right. destruct (Float64.leb_total v c Hv Nc) as [H|H]; [congruence|].
      rewrite H. destruct (Float64.leb_total v 1 Hv eq_refl) as [H1|H1]; [|congruence].
      rewrite H1. auto.
Qed.

(** Hence such a cell does not depend on what [np.empty] left in it. *)
Lemma cell_defined (L : Libs) (c v j1 j2 : float) :
  (c <=? 1) = true -> is_nan v = false ->
  MaskFacts.cell L c v j1 = MaskFacts.cell L c v j2.
Proof.
  intros Hc Hv. unfold MaskFacts.cell.
  destruct (mask_conditions_partition c v Hc Hv)
    as [(H1 & H2 & H3)|[(H1 & H2 & H3)|(H1 & H2 & H3)]];
    rewrite H1, H2, H3; reflexivity.
Qed.

(** C10, at an image of one pixel: the axis normalisation divides 0 by 0,
    the radius is NaN, none of the three selections takes the cell, and the
    mask holds whatever [np.empty] left there; that value reaches the alpha
    band of the final image. *)
Theorem mask_uninitialised_1x1 (L : Libs) :
  exists r,
    radius 1 1 = Ok [r] /\ is_nan r = true /\
    (1 <? r) = false /\ (r <=? 0.5) = false /\ ((0.5 <? r) && (r <=? 1)) = false /\
    circ_cut_mask L 1 1 0.5 = Ok [np_empty L 0] /\
    mask_step (Demo.libs 0) (Some 0.5) Demo.white1 = Ok (PIL.new 1 1 (Demo.px 255 255 255 0)) /\
    mask_step (Demo.libs 0.5) (Some 0.5) Demo.white1 = Ok (PIL.new 1 1 (Demo.px 255 255 255 127)).
Proof.
  eexists. split; [vm_compute; reflexivity|].
  repeat split; vm_compute; reflexivity.
Qed.

(** The same happens along a whole image one pixel wide. *)
Example mask_uninitialised_1x3 (L : Libs) :
  circ_cut_mask L 1 3 0.5 = Ok [np_empty L 0; np_empty L 1; np_empty L 2].
Proof. vm_compute. reflexivity. Qed.

(** * Further properties *)

(** ** set: what a call does to the attributes *)

(** An attribute after an assignment from an argument: kept when the
    argument is [None], replaced otherwise. *)
Definition updated {A : Type} (arg old new : option A) : Prop :=
  (arg = None -> new = old) /\ (forall v, arg = Some v -> new = Some v).

Lemma assign_updated {A : Type} (arg old : option A) : updated arg old (assign arg old).
Proof. destruct arg; split; intros; cbn; congruence. Qed.

Lemma set_circ_cut_state (L : Libs) (a : set_args L) (s : Icon L) :
  match circ_cut_of (circ_cut_arg a) (circ_cut s) with
  | Ok c => circ_cut (state_of (set a s)) = c
  | Raise _ => circ_cut (state_of (set a s)) = circ_cut s
  end.
Proof.
  unfold set. cbn [assign_fields circ_cut].
  destruct (circ_cut_of _ _) as [c|e]; [|reflexivity].
  unfold recompute_final_image. destruct (recompute _); reflexivity.
Qed.

(** X1. Whatever way a call of [set] ends, each of [image], [string],
    [col], [border_color], [cmap], [border_type], [border_width] and
    [make_square] holds the argument given for it, or what it held when the
    argument is [None]; [circ_cut] is what it was when its argument is
    [None]. *)
Theorem set_partial_update (L : Libs) (a : set_args L) (s : Icon L) :
  let s' := state_of (set a s) in
  updated (image_arg a) (image s) (image s') /\
  updated (string_arg a) (string_ s) (string_ s') /\
  updated (col_arg a) (col s) (col s') /\
  updated (border_color_arg a) (border_color s) (border_color s') /\
  updated (cmap_arg a) (cmap s) (cmap s') /\
  updated (border_type_arg a) (border_type s) (border_type s') /\
  updated (border_width_arg a) (border_width s) (border_width s') /\
  updated (make_square_arg a) (make_square s) (make_square s') /\
  (circ_cut_arg a = None -> circ_cut s' = circ_cut s).
Proof.
  cbv zeta.
  destruct (set_keeps_fields L a s) as (Hi & Hs & Hc & Hbc & Hcm & Hbt & Hbw & Hms).
  rewrite Hi, Hs, Hc, Hbc, Hcm, Hbt, Hbw, Hms. cbn [assign_fields image string_ col
    border_color cmap border_type border_width make_square].
  repeat (split; [apply assign_updated|]).
  intros E. pose proof (set_circ_cut_state L a s) as H. rewrite E in H. exact H.
Qed.

(** The call [set(string='A')]. *)
Definition string_only : set_args (Demo.libs 0) :=
  {| image_arg := None; string_arg := Some "A"%string; col_arg := None;
     border_color_arg := None; cmap_arg := None; border_type_arg := None;
     border_width_arg := None; make_square_arg := None; circ_cut_arg := None |}.

Lemma set_partial_update_witness :
  circ_cut (state_of (set string_only (state_of white_icon))) =
  circ_cut (state_of white_icon).
Proof.
  apply (set_partial_update (Demo.libs 0) string_only (state_of white_icon)).
  reflexivity.
Defined.

Lemma circ_cut_of_Some (arg : option circ_cut_value) (cur c : option float) :
  circ_cut_of arg cur = Ok c -> cur <> None -> c <> None.
Proof.
  destruct arg as [[str|v]|]; cbn.
  - destruct (String.eqb str "cut"); [intros H _; injection H as <-; discriminate|].
    destruct (String.eqb str "cosine"); [intros H _; injection H as <-; discriminate|].
    discriminate.
  - destruct ((v <=? 1) && (0 <=? v))%float; [|discriminate].
    intros H _. injection H as <-. discriminate.
  - intros H. injection H as <-. auto.
Qed.

(** X2. [set] cannot unset an attribute: one that holds a value before a
    call holds a value after it, however the call ends (passing [None]
    means keeping, so neither the border nor the mask can be turned off). *)
Theorem set_never_clears (L : Libs) (a : set_args L) (s : Icon L) :
  let s' := state_of (set a s) in
  (image s <> None -> image s' <> None) /\
  (string_ s <> None -> string_ s' <> None) /\
  (col s <> None -> col s' <> None) /\
  (border_color s <> None -> border_color s' <> None) /\
  (cmap s <> None -> cmap s' <> None) /\
  (border_type s <> None -> border_type s' <> None) /\
  (border_width s <> None -> border_width s' <> None) /\
  (make_square s <> None -> make_square s' <> None) /\
  (circ_cut s <> None -> circ_cut s' <> None).
Proof.
  cbv zeta.
  destruct (set_keeps_fields L a s) as (Hi & Hs & Hc & Hbc & Hcm & Hbt & Hbw & Hms).
  rewrite Hi, Hs, Hc, Hbc, Hcm, Hbt, Hbw, Hms. cbn [assign_fields image string_ col
    border_color cmap border_type border_width make_square].
  repeat (split; [match goal with
                  | |- _ -> assign ?arg _ <> None => destruct arg; cbn; [discriminate | auto]
                  end|]).
  intros Hc0. pose proof (set_circ_cut_state L a s) as H.
  destruct (circ_cut_of _ _) as [c|e] eqn:E.
  - rewrite H. exact (circ_cut_of_Some _ _ _ E Hc0).
  - rewrite H. exact Hc0.
Qed.

Lemma set_never_clears_witness :
  image (state_of (set string_only (state_of white_icon))) <> None.
Proof.
  apply (set_never_clears (Demo.libs 0) string_only (state_of white_icon)).
  discriminate.
Defined.

Lemma assign_idem {A : Type} (arg old : option A) :
  assign arg (assign arg old) = assign arg old.
Proof. destruct arg; reflexivity. Qed.

Lemma circ_cut_of_idem (arg : option circ_cut_value) (cur c : option float) :
  circ_cut_of arg cur = Ok c -> circ_cut_of arg c = Ok c.
Proof.
  destruct arg as [[str|v]|]; cbn.
  - destruct (String.eqb str "cut"); [auto|].
    destruct (String.eqb str "cosine"); [auto|]. discriminate.
  - destruct ((v <=? 1) && (0 <=? v))%float; [auto | discriminate].
  - intros H. injection H as <-. reflexivity.
Qed.

(** X3. [set] is idempotent on the attributes: when a call returns, the
    same call made again returns too, after one more recomputation, and
    leaves all nine attributes as the first call left them; when no mask
    is in force ([circ_cut] is [None]) it leaves the final image as well.
    (With a mask the second call works on a fresh [np.empty] buffer, which
    shows in the image when a side is one pixel long.) *)
Theorem set_idempotent (L : Libs) (a : set_args L) (s s1 : Icon L) :
  set a s = Returns s1 ->
  exists s2,
    set a s1 = Returns s2 /\
    image s2 = image s1 /\ string_ s2 = string_ s1 /\ col s2 = col s1 /\
    border_color s2 = border_color s1 /\ cmap s2 = cmap s1 /\
    border_type s2 = border_type s1 /\ border_width s2 = border_width s1 /\
    make_square s2 = make_square s1 /\ circ_cut s2 = circ_cut s1 /\
    recomputes s2 = S (recomputes s1) /\
    (circ_cut s1 = None -> final_image s2 = final_image s1).
Proof.
  intros H.
  assert (set a s1 =
          Returns (with_final_image L s1 (final_image s1) (S (recomputes s1)))) as H2.
  { revert H.
    unfold set. destruct (circ_cut_of _ _) as [c|e] eqn:E; [|discriminate].
    unfold recompute_final_image.
    destruct (recompute (with_circ_cut L (assign_fields a s) c)) as [im|e] eqn:R;
      [|discriminate].
    intros H. injection H as <-.
    unfold with_circ_cut, with_final_image, assign_fields, recompute in *.
    cbn in *. rewrite (circ_cut_of_idem _ _ _ E), !assign_idem, R. reflexivity. }
  eexists. split; [exact H2|]. repeat split.
Qed.

Lemma set_idempotent_witness :
  exists s2,
    set string_only (state_of (set string_only (state_of white_icon))) = Returns s2 /\
    image s2 = image (state_of (set string_only (state_of white_icon))) /\
    string_ s2 = string_ (state_of (set string_only (state_of white_icon))) /\
    col s2 = col (state_of (set string_only (state_of white_icon))) /\
    border_color s2 = border_color (state_of (set string_only (state_of white_icon))) /\
    cmap s2 = cmap (state_of (set string_only (state_of white_icon))) /\
    border_type s2 = border_type (state_of (set string_only (state_of white_icon))) /\
    border_width s2 = border_width (state_of (set string_only (state_of white_icon))) /\
    make_square s2 = make_square (state_of (set string_only (state_of white_icon))) /\
    circ_cut s2 = circ_cut (state_of (set string_only (state_of white_icon))) /\
    recomputes s2 = S (recomputes (state_of (set string_only (state_of white_icon)))) /\
    (circ_cut (state_of (set string_only (state_of white_icon))) = None ->
     final_image s2 = final_image (state_of (set string_only (state_of white_icon)))).
Proof.
  apply (set_idempotent (Demo.libs 0) string_only (state_of white_icon)).
  reflexivity.
Defined.

(** X4. A call of [set] that raises, for whatever reason (the assertion, a
    string that is no keyword, an error inside the image pipeline), leaves
    the cached final image as it was, while the first eight attributes
    have already taken the arguments. *)
Theorem set_failure_keeps_final_image (L : Libs) (a : set_args L) (s s' : Icon L) (e : exn) :
  set a s = Raises e s' ->
  final_image s' = final_image s /\
  image s' = assign (image_arg a) (image s) /\
  string_ s' = assign (string_arg a) (string_ s) /\
  col s' = assign (col_arg a) (col s) /\
  border_color s' = assign (border_color_arg a) (border_color s) /\
  cmap s' = assign (cmap_arg a) (cmap s) /\
  border_type s' = assign (border_type_arg a) (border_type s) /\
  border_width s' = assign (border_width_arg a) (border_width s) /\
  make_square s' = assign (make_square_arg a) (make_square s).
Proof.
  unfold set. destruct (circ_cut_of _ _) as [c|e0].
  - unfold recompute_final_image. destruct (recompute _); [discriminate|].
    intros H. injection H as _ <-. repeat split.
  - intros H. injection H as _ <-. repeat split.
Qed.

(** The call [set(image=white, border_color=(0, 0, 0), border_type='pad')]
    on an object without attributes, [border_width] among them. *)
Definition border_without_width : set_args (Demo.libs 0) :=
  {| image_arg := Some (@Pil (Demo.libs 0) Demo.white1); string_arg := None; col_arg := None;
     border_color_arg := Some (0, 0, 0)%Z; cmap_arg := None;
     border_type_arg := Some "pad"%string;
     border_width_arg := None; make_square_arg := None; circ_cut_arg := None |}.

Lemma set_failure_keeps_final_image_witness :
  final_image (state_of (set border_without_width (fresh (Demo.libs 0)))) = None.
Proof.
  apply (set_failure_keeps_final_image (Demo.libs 0) border_without_width
           (fresh (Demo.libs 0))
           (state_of (set border_without_width (fresh (Demo.libs 0))))
           (TypeError "unsupported operand type(s) for +: 'NoneType' and 'int'")).
  reflexivity.
Defined.

(** X5. An icon without image is valid whatever else it is given: when no
    image is held and none is passed, [set] returns as soon as [circ_cut]
    is acceptable, with no final image, even for a border without width or
    a colormap. *)
Theorem text_only_icon (L : Libs) (a : set_args L) (s : Icon L) (c : option float) :
  image_arg a = None -> image s = None ->
  circ_cut_of (circ_cut_arg a) (circ_cut s) = Ok c ->
  exists s', set a s = Returns s' /\ final_image s' = None /\ circ_cut s' = c /\
             recomputes s' = S (recomputes s).
Proof.
  intros Ha Hs Hc. unfold set. cbn [assign_fields circ_cut]. rewrite Hc.
  unfold recompute_final_image, recompute.
  cbn [with_circ_cut assign_fields image]. rewrite Ha, Hs. cbn [assign].
  eexists. split; [reflexivity|]. repeat split.
Qed.

Lemma text_only_icon_witness :
  exists s', set string_only (fresh (Demo.libs 0)) = Returns s' /\ final_image s' = None /\
             circ_cut s' = None /\ recomputes s' = S (recomputes (fresh (Demo.libs 0))).
Proof.
  apply (text_only_icon (Demo.libs 0) string_only (fresh (Demo.libs 0)) None);
    reflexivity.
Defined.

(** Two calls that differ at most in [string] and [col]. *)
Definition same_but_label {L : Libs} (a a' : set_args L) : Prop :=
  image_arg a = image_arg a' /\ border_color_arg a = border_color_arg a' /\
  cmap_arg a = cmap_arg a' /\ border_type_arg a = border_type_arg a' /\
  border_width_arg a = border_width_arg a' /\ make_square_arg a = make_square_arg a' /\
  circ_cut_arg a = circ_cut_arg a'.

(** The exception a call ended with, if any. *)
Definition raised {L : Libs} (o : outcome L) : option exn :=
  match o with
  | Returns _ => None
  | Raises e _ => Some e
  end.

Lemma recompute_reads (L : Libs) (s s' : Icon L) :
  image s = image s' -> cmap s = cmap s' -> make_square s = make_square s' ->
  circ_cut s = circ_cut s' -> border_color s = border_color s' ->
  border_type s = border_type s' -> border_width s = border_width s' ->
  recompute s = recompute s'.
Proof.
  intros Hi Hcm Hms Hcc Hbc Hbt Hbw. unfold recompute.
  rewrite Hi, Hcm, Hms, Hcc, Hbc, Hbt, Hbw. reflexivity.
Qed.

(** X6. The label and the background colour play no part in the image: of
    two calls of [set] on the same icon that differ only in [string] and
    [col], either both return or both raise the same exception, both leave
    the same [image], [border_color], [cmap], [border_type],
    [border_width], [make_square] and [circ_cut], and, when no mask is in
    force ([circ_cut] is [None]), the same final image.  (With a mask each
    call works on an [np.empty] buffer of its own, which shows in the
    image when a side is one pixel long.) *)
Theorem label_and_col_leave_image (L : Libs) (a a' : set_args L) (s : Icon L) :
  same_but_label a a' ->
  raised (set a s) = raised (set a' s) /\
  image (state_of (set a s)) = image (state_of (set a' s)) /\
  border_color (state_of (set a s)) = border_color (state_of (set a' s)) /\
  cmap (state_of (set a s)) = cmap (state_of (set a' s)) /\
  border_type (state_of (set a s)) = border_type (state_of (set a' s)) /\
  border_width (state_of (set a s)) = border_width (state_of (set a' s)) /\
  make_square (state_of (set a s)) = make_square (state_of (set a' s)) /\
  circ_cut (state_of (set a s)) = circ_cut (state_of (set a' s)) /\
  (circ_cut (state_of (set a s)) = None ->
   final_image (state_of (set a s)) = final_image (state_of (set a' s))).
Proof.
  intros (Hi & Hbc & Hcm & Hbt & Hbw & Hms & Hcc). unfold set.
  cbn [assign_fields circ_cut]. rewrite Hcc.
  destruct (circ_cut_of (circ_cut_arg a') (circ_cut s)) as [c|e].
  - unfold recompute_final_image.
    rewrite (recompute_reads L (with_circ_cut L (assign_fields a s) c)
                               (with_circ_cut L (assign_fields a' s) c));
      cbn [with_circ_cut assign_fields image cmap make_square circ_cut border_color
           border_type border_width]; try congruence.
    destruct (recompute _); cbn; rewrite Hi, Hbc, Hcm, Hbt, Hbw, Hms; repeat split.
  - cbn. rewrite Hi, Hbc, Hcm, Hbt, Hbw, Hms. repeat split.
Qed.

(** The call [set()]. *)
Definition nothing : set_args (Demo.libs 0) :=
  {| image_arg := None; string_arg := None; col_arg := None;
     border_color_arg := None; cmap_arg := None; border_type_arg := None;
     border_width_arg := None; make_square_arg := None; circ_cut_arg := None |}.

Lemma label_and_col_leave_image_witness :
  raised (set string_only (state_of white_icon)) = raised (set nothing (state_of white_icon)) /\
  image (state_of (set string_only (state_of white_icon))) =
    image (state_of (set nothing (state_of white_icon))) /\
  border_color (state_of (set string_only (state_of white_icon))) =
    border_color (state_of (set nothing (state_of white_icon))) /\
  cmap (state_of (set string_only (state_of white_icon))) =
    cmap (state_of (set nothing (state_of white_icon))) /\
  border_type (state_of (set string_only (state_of white_icon))) =
    border_type (state_of (set nothing (state_of white_icon))) /\
  border_width (state_of (set string_only (state_of white_icon))) =
    border_width (state_of (set nothing (state_of white_icon))) /\
  make_square (state_of (set string_only (state_of white_icon))) =
    make_square (state_of (set nothing (state_of white_icon))) /\
  circ_cut (state_of (set string_only (state_of white_icon))) =
    circ_cut (state_of (set nothing (state_of white_icon))) /\
  (circ_cut (state_of (set string_only (state_of white_icon))) = None ->
   final_image (state_of (set string_only (state_of white_icon))) =
   final_image (state_of (set nothing (state_of white_icon)))).
Proof.
  apply (label_and_col_leave_image (Demo.libs 0) string_only nothing (state_of white_icon)).
  repeat split.
Defined.

(** X7. A [circ_cut] that is not a number (NaN) fails the assertion like a
    number out of range: no comparison with it holds. *)
Theorem nan_circ_cut_rejected (L : Libs) (a : set_args L) (s : Icon L) (v : float) :
  circ_cut_arg a = Some (CcNum v) -> is_nan v = true ->
  set a s = Raises (AssertionError "a numeric circ_cut must be in [0,1]") (assign_fields a s).
Proof.
  intros Ha Hv. unfold set. rewrite Ha. cbn [circ_cut_of].
  destruct (v <=? 1)%float eqn:E; [|reflexivity].
  apply Float64.leb_not_nan_l in E. congruence.
Qed.

Lemma nan_circ_cut_rejected_witness :
  set (just_circ_cut (Demo.libs 0) (CcNum nan)) (state_of white_icon) =
  Raises (AssertionError "a numeric circ_cut must be in [0,1]")
         (assign_fields (just_circ_cut (Demo.libs 0) (CcNum nan)) (state_of white_icon)).
Proof.
  apply (nan_circ_cut_rejected (Demo.libs 0) (just_circ_cut (Demo.libs 0) (CcNum nan))
           (state_of white_icon) nan); reflexivity.
Defined.

(** X8. With every option off ([make_square] not true, [circ_cut] unset, no
    border colour or a border type other than ['pad']) the final image is
    the RGBA conversion of the source image and nothing else. *)
Theorem plain_pipeline_is_conversion (L : Libs) (s : Icon L) (img : image_t L) :
  image s = Some img -> make_square s <> Some true -> circ_cut s = None ->
  border_color s = None \/ border_type s <> Some "pad"%string ->
  recompute s = Py.bind (to_rgba L (cmap s) img) (fun im => Ok (Some im)).
Proof.
  intros Hi Hms Hcc Hb. unfold recompute. rewrite Hi, Hcc.
  destruct (to_rgba L (cmap s) img) as [im|e]; [|reflexivity]. cbn [Py.bind].
  assert (square_step L (make_square s) im = Ok im) as ->.
  { unfold square_step. destruct (make_square s) as [[|]|]; congruence. }
  cbn [Py.bind mask_step].
  assert (border_step (border_color s) (border_type s) (border_width s) im = Ok im) as ->.
  { unfold border_step. destruct Hb as [->|Hb]; [reflexivity|].
    destruct (border_color s); [|reflexivity].
    destruct (border_type s) as [t|]; [|reflexivity].
    destruct (String.eqb_spec t "pad"); [congruence | reflexivity]. }
  reflexivity.
Qed.

Lemma plain_pipeline_is_conversion_witness :
  recompute (state_of white_icon) =
  Py.bind (to_rgba (Demo.libs 0) (cmap (state_of white_icon)) (@Pil (Demo.libs 0) Demo.white1))
          (fun im => Ok (Some im)).
Proof.
  apply (plain_pipeline_is_conversion (Demo.libs 0) (state_of white_icon)
           (@Pil (Demo.libs 0) Demo.white1));
    [reflexivity | discriminate | reflexivity | left; reflexivity].
Defined.

(** ** The mask: edge cases and composition with the alpha band *)

Local Open Scope float_scope.

(** X9. An image with an empty side cannot be masked: with [circ_cut] set,
    the step raises the ValueError of [np.max] on an empty axis; without
    [circ_cut] the step leaves such an image alone. *)
Theorem mask_of_empty_image (L : Libs) (c : float) (im : PIL.Image) :
  PIL.width im = 0%nat \/ PIL.height im = 0%nat ->
  mask_step L (Some c) im =
    Raise (ValueError "zero-size array to reduction operation maximum which has no identity") /\
  mask_step L None im = Ok im.
Proof.
  intros H. split; [|reflexivity].
  cbn [mask_step]. unfold apply_circ_cut, circ_cut_mask, radius.
  destruct (PIL.width im) as [|w] eqn:Ew.
  - reflexivity.
  - destruct H as [H|H]; [discriminate|]. rewrite H.
    destruct (MaskFacts.normalized_axis_ok (S w)) as (x & -> & _); [lia|].
    reflexivity.
Qed.

Lemma mask_of_empty_image_witness :
  mask_step (Demo.libs 0) (Some 0.5) (PIL.new 3 0 (Demo.px 0 0 0 255)) =
    Raise (ValueError "zero-size array to reduction operation maximum which has no identity") /\
  mask_step (Demo.libs 0) None (PIL.new 3 0 (Demo.px 0 0 0 255)) =
    Ok (PIL.new 3 0 (Demo.px 0 0 0 255)).
Proof.
  apply (mask_of_empty_image (Demo.libs 0) 0.5 (PIL.new 3 0 (Demo.px 0 0 0 255))).
  right. reflexivity.
Defined.

Lemma zip_with_ext_in {A B C : Type} (f g : A -> B -> C) r a b :
  List.length a = List.length b ->
  (forall v x y, In v r -> f v x = g v y) ->
  Np.zip_with f r a = Np.zip_with g r b.
Proof.
  revert a b. induction r as [|v r IH]; intros [|x a] [|y b] Hl H; cbn in *;
    try reflexivity; try discriminate.
  f_equal; [apply H; auto | apply IH; [congruence | intros; apply H; auto]].
Qed.

(** X10. When every radius is a number and [circ_cut <= 1], the mask owes
    nothing to the memory [np.empty] handed back: two runs that agree on
    the cosine give the same mask, whatever the buffers held. *)
Theorem mask_defined_for_numbers (L1 L2 : Libs) (w h : nat) (c : float) (r : list float) :
  (forall v, np_cos L1 v = np_cos L2 v) ->
  (c <=? 1) = true ->
  radius w h = Ok r ->
  forallb (fun v => negb (is_nan v)) r = true ->
  exists mask, circ_cut_mask L1 w h c = Ok mask /\ circ_cut_mask L2 w h c = Ok mask.
Proof.
  intros Hcos Hc Hr Hnum. unfold circ_cut_mask. rewrite Hr. cbn [Py.bind].
  rewrite !MaskFacts.window_cells. eexists. split; [reflexivity|].
  f_equal. apply zip_with_ext_in.
  - rewrite !length_map. reflexivity.
  - intros v x y Hin.
    assert (is_nan v = false) as Hv.
    { apply negb_true_iff. exact (proj1 (forallb_forall _ _) Hnum v Hin). }
    rewrite (cell_defined L2 c v x y Hc Hv).
    unfold MaskFacts.cell, taper. rewrite Hcos. reflexivity.
Qed.

Lemma mask_defined_for_numbers_witness :
  exists mask, circ_cut_mask (Demo.libs 0) 4 4 0.5 = Ok mask /\
               circ_cut_mask (Demo.libs 7) 4 4 0.5 = Ok mask.
Proof.
  apply (mask_defined_for_numbers (Demo.libs 0) (Demo.libs 7) 4 4 0.5
           (match radius 4 4 with Ok r => r | Raise _ => [] end));
    [reflexivity | reflexivity | vm_compute; reflexivity | vm_compute; reflexivity].
Defined.

Lemma mask_step_pixels (L : Libs) (c : float) (im : PIL.Image) :
  PIL.wf im -> (0 < PIL.width im)%nat -> (0 < PIL.height im)%nat ->
  exists r out,
    radius (PIL.width im) (PIL.height im) = Ok r /\
    mask_step L (Some c) im = Ok out /\
    forall x y, (x < PIL.width im)%nat -> (y < PIL.height im)%nat ->
      exists p rxy,
        PIL.getpixel im x y = Some p /\
        nth_error r (x * PIL.height im + y) = Some rxy /\
        PIL.getpixel out x y =
          Some (PIL.set_alpha p
                  (Np.uint8 (MaskFacts.cell L c rxy (np_empty L (x * PIL.height im + y))
                             * Np.of_Z (PIL.alpha p)))).
Proof.
  intros Hwf Hw Hh.
  destruct (MaskFacts.circ_cut_mask_cells L _ _ c Hw Hh)
    as (xs & ys & r & mask & _ & _ & Hr & Hm & Hlen & _ & Hcells).
  exists r. cbn [mask_step]. unfold apply_circ_cut. rewrite Hm. cbn [Py.bind].
  unfold PIL.putalpha.
  cbn [PIL.fromarray_L PIL.band_width PIL.band_height PIL.band_values].
  rewrite !Nat.eqb_refl. cbn [andb].
  eexists. split; [exact Hr|]. split; [reflexivity|].
  intros x y Hx Hy.
  destruct (PILFacts.getpixel_in_range im x y Hwf Hx Hy) as (p & Hp).
  destruct (Hcells x y Hx Hy) as (xi & yj & _ & _ & Er & Em).
  exists p. eexists. split; [exact Hp|]. split; [exact Er|].
  apply PILFacts.getpixel_Some in Hp. destruct Hp as (_ & _ & Hp).
  apply PILFacts.getpixel_Some. cbn [PIL.width PIL.height PIL.pixels].
  split; [exact Hx|]. split; [exact Hy|].
  apply NpFacts.nth_error_zip_with; [exact Hp|].
  rewrite nth_error_map.
  rewrite NpFacts.nth_error_zip_with
    with (x := MaskFacts.cell L c (PrimFloat.sqrt (xi * xi + yj * yj))
                 (np_empty L (x * PIL.height im + y)))
         (y := PIL.alpha p); [reflexivity| |].
  - rewrite NpFacts.nth_error_transpose by assumption.
    f_equal. apply nth_error_nth. exact Em.
  - unfold PIL.band_array, PIL.getchannel_A. cbn [PIL.band_values].
    rewrite nth_error_map, Hp. reflexivity.
Qed.

(** X11. Masking with [circ_cut = c <= 1] leaves a pixel whose radius is at
    most [c] exactly as it was, alpha included, and makes a pixel whose
    radius exceeds 1 fully transparent with its colours kept (alpha being a
    byte). *)
Theorem mask_keeps_inside_clears_outside (L : Libs) (c : float) (im : PIL.Image) :
  PIL.wf im -> (0 < PIL.width im)%nat -> (0 < PIL.height im)%nat ->
  (c <=? 1) = true ->
  exists r out,
    radius (PIL.width im) (PIL.height im) = Ok r /\
    mask_step L (Some c) im = Ok out /\
    forall x y p rxy,
      PIL.getpixel im x y = Some p ->
      nth_error r (x * PIL.height im + y) = Some rxy ->
      (0 <= PIL.alpha p < 256)%Z ->
      ((rxy <=? c) = true -> PIL.getpixel out x y = Some p) /\
      ((1 <? rxy) = true ->
       PIL.getpixel out x y = Some (PIL.set_alpha p 0) /\
       exists q, PIL.getpixel out x y = Some q /\ PIL.alpha q = 0%Z /\
                 PIL.red q = PIL.red p /\ PIL.green q = PIL.green p /\
                 PIL.blue q = PIL.blue p).
Proof.
  intros Hwf Hw Hh Hc.
  destruct (mask_step_pixels L c im Hwf Hw Hh) as (r & out & Hr & Hout & Hpix).
  exists r, out. split; [exact Hr|]. split; [exact Hout|].
  intros x y p rxy Hp Hrxy Ha.
  pose proof (proj1 (PILFacts.getpixel_Some im x y p) Hp) as (Hx & Hy & _).
  destruct (Hpix x y Hx Hy) as (p' & r' & Hp' & Hr' & Ho).
  assert (p' = p) as -> by congruence. assert (r' = rxy) as -> by congruence.
  rewrite Ho. unfold MaskFacts.cell. split.
  - intros Hle. rewrite (Float64.leb_ltb_false _ _ Hle), Hle. cbn [andb].
    rewrite (uint8_one_times _ Ha). destruct p. reflexivity.
  - intros Hgt. rewrite (Float64.ltb_leb_false _ _ Hgt), andb_false_r.
    rewrite (Float64.ltb_leb_trans _ _ _ Hgt Hc), Hgt.
    rewrite (uint8_zero_times _ Ha). split; [reflexivity|].
    eexists. split; [reflexivity|]. repeat split.
Qed.

Lemma mask_keeps_inside_clears_outside_witness :
  exists r out,
    radius (PIL.width Demo.white4) (PIL.height Demo.white4) = Ok r /\
    mask_step (Demo.libs 0) (Some 0.5) Demo.white4 = Ok out /\
    forall x y p rxy,
      PIL.getpixel Demo.white4 x y = Some p ->
      nth_error r (x * PIL.height Demo.white4 + y) = Some rxy ->
      (0 <= PIL.alpha p < 256)%Z ->
      ((rxy <=? 0.5) = true -> PIL.getpixel out x y = Some p) /\
      ((1 <? rxy) = true ->
       PIL.getpixel out x y = Some (PIL.set_alpha p 0) /\
       exists q, PIL.getpixel out x y = Some q /\ PIL.alpha q = 0%Z /\
                 PIL.red q = PIL.red p /\ PIL.green q = PIL.green p /\
                 PIL.blue q = PIL.blue p).
Proof.
  apply (mask_keeps_inside_clears_outside (Demo.libs 0) 0.5 Demo.white4);
    [reflexivity | cbn; lia | cbn; lia | reflexivity].
Defined.

(** ** Tick labels *)

(** What a tick label is to have added to the axis [target] for an icon
    with final image [fi] and label [str]: nothing, the text alone at
    z-order 1, the image alone, or the image and then the text one z-order
    above it; the image at zoom [size]. *)
Definition stacked (size : float) (fi : option PIL.Image) (str : option string)
    (target result : Ticks.Axes) : Prop :=
  match fi, str with
  | None, None => result = target
  | None, Some s =>
      exists t, result = target ++ [Ticks.Text t] /\
                Ticks.text_string t = s /\ Ticks.text_zorder t = 1%Z
  | Some im, None =>
      exists b, result = target ++ [Ticks.Bbox b] /\
                Ticks.bbox_image b = im /\ Ticks.bbox_zoom b = size
  | Some im, Some s =>
      exists b t, result = target ++ [Ticks.Bbox b; Ticks.Text t] /\
                  Ticks.bbox_image b = im /\ Ticks.bbox_zoom b = size /\
                  Ticks.text_string t = s /\
                  Ticks.text_zorder t = (Ticks.bbox_zorder b + 1)%Z
  end.

(** X12. Both tick labels keep what the axis held and stack as [plot] does:
    nothing is added for an icon with neither final image nor string, the
    text alone at z-order 1 without an image, and otherwise the image, at
    zoom [size], followed by the text one z-order above it. *)
Theorem tick_label_stacking (L : Libs) (self : Icon L) (v size : float) (offset : Z)
    (ax : option Ticks.Axes) (gca : Ticks.Axes) :
  let target := match ax with None => gca | Some a => a end in
  stacked size (final_image self) (string_ self) target
          (x_tick_label self v size offset ax gca) /\
  stacked size (final_image self) (string_ self) target
          (y_tick_label self v size offset ax gca).
Proof.
  cbv zeta. unfold stacked, x_tick_label, y_tick_label.
  destruct (final_image self) as [im|], (string_ self) as [s|]; split;
    try reflexivity;
    try (eexists; split; [reflexivity|]; split; reflexivity);
    do 2 eexists; rewrite <- app_assoc; (split; [reflexivity|]); repeat split.
Qed.

(** The reflection that exchanges the two axes: coordinates are swapped,
    the vertical alignment becomes the horizontal one and back (top with
    right, bottom with left). *)
Definition swap {A B : Type} (p : A * B) : B * A := (snd p, fst p).

Definition turn (s : string) : string :=
  if String.eqb s "top" then "right"
  else if String.eqb s "right" then "top"
  else if String.eqb s "bottom" then "left"
  else if String.eqb s "left" then "bottom"
  else s.

Definition mirror (a : Ticks.artist) : Ticks.artist :=
  match a with
  | Ticks.Placed p => Ticks.Placed p
  | Ticks.Bbox b =>
      Ticks.Bbox
        {| Ticks.bbox_image := Ticks.bbox_image b; Ticks.bbox_zoom := Ticks.bbox_zoom b;
           Ticks.bbox_xy := swap (Ticks.bbox_xy b);
           Ticks.bbox_xybox := swap (Ticks.bbox_xybox b);
           Ticks.bbox_xycoords := swap (Ticks.bbox_xycoords b);
           Ticks.box_alignment := swap (Ticks.box_alignment b);
           Ticks.boxcoords := Ticks.boxcoords b;
           Ticks.edgecolor := Ticks.edgecolor b;
           Ticks.bbox_arrowprops := Ticks.bbox_arrowprops b;
           Ticks.bbox_pad := Ticks.bbox_pad b;
           Ticks.bbox_zorder := Ticks.bbox_zorder b |}
  | Ticks.Text t =>
      Ticks.Text
        {| Ticks.text_string := Ticks.text_string t;
           Ticks.text_xy := swap (Ticks.text_xy t);
           Ticks.xytext := swap (Ticks.xytext t);
           Ticks.text_xycoords := swap (Ticks.text_xycoords t);
           Ticks.textcoords := Ticks.textcoords t;
           Ticks.horizontalalignment := turn (Ticks.verticalalignment t);
           Ticks.verticalalignment := turn (Ticks.horizontalalignment t);
           Ticks.text_arrowprops := Ticks.text_arrowprops t;
           Ticks.text_zorder := Ticks.text_zorder t |}
  end.

(** X13. The two tick labels are one behaviour seen along either axis: what
    [y_tick_label] adds for a position, size and offset is the mirror image
    of what [x_tick_label] adds for them (anchor, offset, coordinate
    systems and alignments exchanged between the axes; image, text, zoom,
    guide line, padding and z-orders the same). *)
Theorem y_tick_label_mirrors_x (L : Libs) (self : Icon L) (v size : float) (offset : Z)
    (ax : option Ticks.Axes) (gca : Ticks.Axes) :
  let target := match ax with None => gca | Some a => a end in
  exists added,
    x_tick_label self v size offset ax gca = target ++ added /\
    y_tick_label self v size offset ax gca = target ++ map mirror added /\
    map mirror (map mirror added) = added.
Proof.
  cbv zeta. unfold x_tick_label, y_tick_label.
  destruct (final_image self) as [im|], (string_ self) as [s|].
  - eexists [_; _]. rewrite <- !app_assoc. repeat split.
  - eexists [_]. repeat split.
  - eexists [_]. repeat split.
  - exists []. rewrite !app_nil_r. repeat split.
Qed.

(** ** Raw arrays: from the values given to the bytes of the image *)

(** The bytes handed to [PIL.Image.fromarray] for a raw array without
    colormap (lines 116-122). *)
Definition array_bytes (a : Np.ndarray) : list float :=
  Np.data (Np.times255_uint8 (prescale a)).

Lemma byte_facts (k : Z) :
  (0 <= k < 256)%Z ->
  Np.uint8 ((Np.of_Z k / 255) * 255) = k /\
  Np.uint8 (Np.of_Z k * 255) = ((255 * k) mod 256)%Z /\
  (1 <? Np.of_Z k) = (1 <? k)%Z.
Proof.
  intros Hk.
  assert (forallb (fun n =>
            let k := Z.of_nat n in
            Z.eqb (Np.uint8 ((Np.of_Z k / 255) * 255)) k &&
            Z.eqb (Np.uint8 (Np.of_Z k * 255)) ((255 * k) mod 256) &&
            Bool.eqb (1 <? Np.of_Z k) (1 <? k)%Z)
          (seq 0 256) = true) as H by (vm_compute; reflexivity).
  pose proof (proj1 (forallb_forall _ _) H (Z.to_nat k)) as Hn.
  cbv beta zeta in Hn. rewrite Z2Nat.id in Hn by lia.
  assert (In (Z.to_nat k) (seq 0 256)) as Hin by (apply in_seq; lia).
  specialize (Hn Hin). rewrite !andb_true_iff, !Z.eqb_eq in Hn.
  destruct Hn as ((H1 & H2) & H3). apply Bool.eqb_prop in H3. auto.
Qed.

(** X14. A float64 array that holds whole byte values, one of them above 1,
    is read on the 0-255 scale without loss: dividing by 255, multiplying
    by 255 and truncating gives every byte back. *)
Theorem float64_bytes_round_trip (a : Np.ndarray) (ks : list Z) :
  Np.dt a = Np.float64 ->
  Np.data a = map Np.of_Z ks ->
  Forall (fun k => 0 <= k < 256)%Z ks ->
  (exists k, In k ks /\ (1 < k)%Z) ->
  array_bytes a = map Np.of_Z ks.
Proof.
  intros Hd Hdata Hks (k0 & Hin0 & Hk0).
  unfold array_bytes, prescale, Np.any_gt_1. rewrite Hd, Hdata. cbn [Np.dtype_eqb andb].
  assert (existsb (fun v => 1 <? v) (map Np.of_Z ks) = true) as ->.
  { apply existsb_exists. exists (Np.of_Z k0). split; [apply in_map; exact Hin0|].
    rewrite Forall_forall in Hks.
    rewrite (proj2 (proj2 (byte_facts k0 (Hks k0 Hin0)))). apply Z.ltb_lt. exact Hk0. }
  cbn [Np.times255_uint8 Np.div255 Np.data]. rewrite Hdata, !map_map.
  apply map_ext_in. intros k Hin. rewrite Forall_forall in Hks.
  rewrite (proj1 (byte_facts k (Hks k Hin))). reflexivity.
Qed.

Lemma float64_bytes_round_trip_witness :
  array_bytes Demo.bytes_f64 = map Np.of_Z [0; 51]%Z.
Proof.
  apply (float64_bytes_round_trip Demo.bytes_f64 [0; 51]%Z).
  - reflexivity.
  - reflexivity.
  - repeat constructor; lia.
  - exists 51%Z. split; [right; left; reflexivity | lia].
Defined.

(** X15. An array of an integer type is never rescaled, and its product by
    255 is cut to eight bits: a uint8 array holding the bytes [k] comes out
    holding [(255 * k) mod 256], so 1 becomes 255 and 200 becomes 56. *)
Theorem uint8_array_wraps (a : Np.ndarray) (ks : list Z) :
  Np.dt a = Np.uint8_ ->
  Np.data a = map Np.of_Z ks ->
  Forall (fun k => 0 <= k < 256)%Z ks ->
  prescale a = a /\
  array_bytes a = map (fun k => Np.of_Z ((255 * k) mod 256)) ks.
Proof.
  intros Hd Hdata Hks.
  assert (prescale a = a) as Hp by (unfold prescale; rewrite Hd; reflexivity).
  split; [exact Hp|].
  unfold array_bytes. rewrite Hp. cbn [Np.times255_uint8 Np.data].
  rewrite Hdata, map_map. apply map_ext_in. intros k Hin.
  rewrite Forall_forall in Hks.
  rewrite (proj1 (proj2 (byte_facts k (Hks k Hin)))). reflexivity.
Qed.

(** A uint8 array holding 0, 1 and 200. *)
Definition bytes_u8 : Np.ndarray :=
  {| Np.dt := Np.uint8_; Np.shape := [1; 3]%nat; Np.data := [0; 1; 200] |}.

Lemma uint8_array_wraps_witness :
  prescale bytes_u8 = bytes_u8 /\
  array_bytes bytes_u8 = [0; 255; 56].
Proof.
  apply (uint8_array_wraps bytes_u8 [0; 1; 200]%Z).
  - reflexivity.
  - reflexivity.
  - repeat constructor; lia.
Defined.

(** ** Sides of one pixel *)

Lemma is_nan_SF (x : float) : is_nan x = true <-> Prim2SF x = S754_nan.
Proof.
  unfold is_nan. rewrite negb_true_iff, FloatAxioms.eqb_spec. unfold SFeqb.
  destruct (Prim2SF x) as [s|s| |s m e]; cbn.
  - destruct s; split; discriminate.
  - destruct s; split; discriminate.
  - split; reflexivity.
  - destruct s; cbn; rewrite Z.compare_refl;
      change (Pos.compare_cont Eq m m) with (Pos.compare m m);
      rewrite Pos.compare_refl; split; discriminate.
Qed.

(** A NaN coordinate makes the radius NaN. *)
Lemma nan_radius (x y : float) :
  is_nan x = true \/ is_nan y = true ->
  is_nan (PrimFloat.sqrt (x * x + y * y)) = true.
Proof.
  intros H. apply is_nan_SF.
  rewrite FloatAxioms.sqrt_spec, FloatAxioms.add_spec, !FloatAxioms.mul_spec.
  destruct H as [H|H]; apply is_nan_SF in H; rewrite H.
  - reflexivity.
  - change (SF64mul S754_nan S754_nan) with S754_nan.
    destruct (SF64mul (Prim2SF x) (Prim2SF x)); reflexivity.
Qed.

(** No selection takes a cell whose radius is NaN. *)
Lemma nan_cell (L : Libs) (c v junk : float) :
  is_nan v = true -> MaskFacts.cell L c v junk = junk.
Proof.
  intros Hv. unfold MaskFacts.cell.
  assert (forall a, (a <? v) = false) as Hlt.
  { intros a. destruct (a <? v) eqn:E; [|reflexivity].
    apply Float64.ltb_iff in E. destruct E as (_ & N & _).
    apply is_nan_SF in Hv. rewrite Hv in N. discriminate. }
  assert (forall a, (v <=? a) = false) as Hle.
  { intros a. destruct (v <=? a) eqn:E; [|reflexivity].
    apply Float64.leb_not_nan_l in E. congruence. }
  rewrite !Hlt, !Hle. reflexivity.
Qed.

(** X16. For an image one pixel wide or one pixel high, of any other
    side and for any [circ_cut], none of the three assignments writes a
    cell: the mask is, cell for cell, the buffer [np.empty] handed back. *)
Theorem one_pixel_side_mask (L : Libs) (w h : nat) (c : float) :
  (0 < w)%nat -> (0 < h)%nat -> w = 1%nat \/ h = 1%nat ->
  circ_cut_mask L w h c = Ok (map (np_empty L) (seq 0 (w * h))).
Proof.
  intros Hw Hh Hone.
  destruct (MaskFacts.circ_cut_mask_cells L w h c Hw Hh)
    as (x & y & r & mask & Hx & Hy & _ & Hm & Hlen & _ & Hcells).
  rewrite Hm. f_equal. apply nth_error_ext. intros k.
  destruct (Nat.lt_ge_cases k (w * h)) as [Hk|Hk].
  - rewrite nth_error_map, NpFacts.nth_error_seq_lt by exact Hk. cbn.
    assert (k = (k / h) * h + k mod h)%nat as Ek.
    { rewrite (Nat.div_mod_eq k h) at 1. lia. }
    assert (k / h < w)%nat as Hi by (apply Nat.Div0.div_lt_upper_bound; lia).
    assert (k mod h < h)%nat as Hj by (apply Nat.mod_upper_bound; lia).
    destruct (Hcells _ _ Hi Hj) as (xi & yj & Exi & Eyj & _ & Ea).
    rewrite <- Ek in Ea. rewrite Ea. f_equal. apply nan_cell, nan_radius.
    clear Ea Ek Hcells. remember (k / h)%nat as i. remember (k mod h)%nat as j.
    destruct Hone as [->| ->].
    + left. vm_compute in Hx. injection Hx as <-.
      destruct i as [|i]; [|lia]. cbn in Exi. injection Exi as <-. reflexivity.
    + right. vm_compute in Hy. injection Hy as <-.
      destruct j as [|j]; [|lia]. cbn in Eyj. injection Eyj as <-. reflexivity.
  - rewrite (proj2 (nth_error_None _ _)) by lia.
    symmetry. apply nth_error_None. rewrite length_map, length_seq. exact Hk.
Qed.

Lemma one_pixel_side_mask_witness :
  circ_cut_mask (Demo.libs 7) 5 1 0.5 = Ok (map (np_empty (Demo.libs 7)) (seq 0 (5 * 1))).
Proof.
  apply (one_pixel_side_mask (Demo.libs 7) 5 1 0.5); [lia | lia | right; reflexivity].
Defined.

(** ** The mask, cell by cell *)

(** What one cell of the mask holds, by the radius there. *)
Lemma cell_cases (L : Libs) (c v junk : float) :
  (c <=? 1) = true ->
  (is_nan v = true /\ MaskFacts.cell L c v junk = junk) \/
  (is_nan v = false /\
   (((1 <? v) = true /\ MaskFacts.cell L c v junk = 0) \/
    ((v <=? c) = true /\ MaskFacts.cell L c v junk = 1) \/
    ((c <? v) = true /\ (v <=? 1) = true /\
     MaskFacts.cell L c v junk = 0.5 + 0.5 * np_cos L ((Np.pi * (v - c)) / (1 - c))))).
Proof.
  intros Hc. destruct (is_nan v) eqn:Hv.
  - left. split; [reflexivity|]. apply nan_cell, Hv.
  - right. split; [reflexivity|]. unfold MaskFacts.cell.
    destruct (mask_conditions_partition c v Hc Hv)
      as [(H1 & H2 & H3)|[(H1 & H2 & H3)|(H1 & H2 & H3)]]; rewrite H3.
    + left. rewrite H2, H1. auto.
    + right. left. rewrite H2. auto.
    + right. right. apply andb_true_iff in H3. destruct H3 as [H3 H4]. auto.
Qed.

(** X17. For an image of any size and [circ_cut = c <= 1], the mask
    exists, and each of its cells is settled by the radius
    [r = sqrt (x_i^2 + y_j^2)] of its pixel: 0 when [r > 1], 1 when
    [r <= c], [0.5 + 0.5 * cos (pi * (r - c) / (1 - c))] when [c < r <= 1],
    and, when [r] is NaN, whatever [np.empty] left there.  When [c] is 1
    the taper expression is applied to no element. *)
Theorem mask_cell_by_cases (L : Libs) (w h : nat) (c : float) (i j : nat) :
  (c <=? 1) = true -> (i < w)%nat -> (j < h)%nat ->
  exists x y r mask xi yj rij aij,
    normalized_axis w = Ok x /\ normalized_axis h = Ok y /\
    radius w h = Ok r /\ circ_cut_mask L w h c = Ok mask /\
    (c = 1 -> taper_selection c r = []) /\
    nth_error x i = Some xi /\ nth_error y j = Some yj /\
    rij = PrimFloat.sqrt (xi * xi + yj * yj) /\
    nth_error r (i * h + j) = Some rij /\
    nth_error mask (i * h + j) = Some aij /\
    ((is_nan rij = true /\ aij = np_empty L (i * h + j)) \/
     (is_nan rij = false /\
      (((1 <? rij) = true /\ aij = 0) \/
       ((rij <=? c) = true /\ aij = 1) \/
       ((c <? rij) = true /\ (rij <=? 1) = true /\
        aij = 0.5 + 0.5 * np_cos L ((Np.pi * (rij - c)) / (1 - c)))))).
Proof.
  intros Hc Hi Hj.
  destruct (MaskFacts.circ_cut_mask_cells L w h c ltac:(lia) ltac:(lia))
    as (x & y & r & mask & Hx & Hy & Hr & Hm & _ & _ & Hcells).
  destruct (Hcells i j Hi Hj) as (xi & yj & Exi & Eyj & Er & Ea).
  exists x, y, r, mask, xi, yj, (PrimFloat.sqrt (xi * xi + yj * yj)). eexists.
  split; [exact Hx|]. split; [exact Hy|]. split; [exact Hr|]. split; [exact Hm|].
  split; [intros ->; apply MaskFacts.taper_selection_one|].
  split; [exact Exi|]. split; [exact Eyj|]. split; [reflexivity|].
  split; [exact Er|]. split; [exact Ea|].
  apply cell_cases, Hc.
Qed.

Lemma mask_cell_by_cases_witness :
  exists x y r mask xi yj rij aij,
    normalized_axis 4 = Ok x /\ normalized_axis 4 = Ok y /\
    radius 4 4 = Ok r /\ circ_cut_mask (Demo.libs 0) 4 4 0.5 = Ok mask /\
    (0.5 = 1 -> taper_selection 0.5 r = []) /\
    nth_error x 1 = Some xi /\ nth_error y 3 = Some yj /\
    rij = PrimFloat.sqrt (xi * xi + yj * yj) /\
    nth_error r (1 * 4 + 3) = Some rij /\
    nth_error mask (1 * 4 + 3) = Some aij /\
    ((is_nan rij = true /\ aij = np_empty (Demo.libs 0) (1 * 4 + 3)) \/
     (is_nan rij = false /\
      (((1 <? rij) = true /\ aij = 0) \/
       ((rij <=? 0.5) = true /\ aij = 1) \/
       ((0.5 <? rij) = true /\ (rij <=? 1) = true /\
        aij = 0.5 + 0.5 * np_cos (Demo.libs 0) ((Np.pi * (rij - 0.5)) / (1 - 0.5)))))).
Proof.
  apply (mask_cell_by_cases (Demo.libs 0) 4 4 0.5 1 3); [reflexivity | lia | lia].
Defined.

(** ** Radii that are numbers *)

(** The sign of a value that is not NaN. *)
Definition number_signed (sx : bool) (f : spec_float) : Prop :=
  match f with
  | S754_nan => False
  | S754_zero s | S754_infinity s | S754_finite s _ _ => s = sx
  end.

Lemma shr_1_nonneg mrs : (0 <= shr_m mrs)%Z -> (0 <= shr_m (shr_1 mrs))%Z.
Proof.
  destruct mrs as [m r s]. cbn [shr_m]. intros H.
  destruct m as [|p|p]; [cbn; lia | destruct p; cbn; lia | lia].
Qed.

Lemma iter_shr_1_nonneg p mrs :
  (0 <= shr_m mrs)%Z -> (0 <= shr_m (iter_pos shr_1 p mrs))%Z.
Proof.
  revert mrs. induction p as [p IH|p IH|]; intros mrs H; cbn.
  - apply IH, IH, shr_1_nonneg, H.
  - apply IH, IH, H.
  - apply shr_1_nonneg, H.
Qed.

Lemma shr_fexp_nonneg prec emax m e l :
  (0 <= m)%Z -> (0 <= shr_m (fst (shr_fexp prec emax m e l)))%Z.
Proof.
  intros H. unfold shr_fexp, shr.
  assert (0 <= shr_m (shr_record_of_loc m l))%Z as H0.
  { destruct l as [|[]]; cbn; exact H. }
  destruct (_ - e)%Z; cbn [fst]; try exact H0.
  apply iter_shr_1_nonneg, H0.
Qed.

Lemma round_nearest_even_nonneg m l : (0 <= m)%Z -> (0 <= round_nearest_even m l)%Z.
Proof.
  intros H. unfold round_nearest_even. destruct l as [|[]]; try lia.
  destruct (Z.even m); lia.
Qed.

(** Rounding a magnitude never gives NaN and keeps the sign. *)
Lemma binary_round_aux_number prec emax sx mx ex lx :
  (0 <= mx)%Z -> number_signed sx (binary_round_aux prec emax sx mx ex lx).
Proof.
  intros H. unfold binary_round_aux.
  pose proof (shr_fexp_nonneg prec emax mx ex lx H) as H1.
  destruct (shr_fexp prec emax mx ex lx) as [mrs' e']. cbn [fst] in H1.
  pose proof (shr_fexp_nonneg prec emax _ e' loc_Exact
                (round_nearest_even_nonneg _ (loc_of_shr_record mrs') H1)) as H2.
  destruct (shr_fexp prec emax _ e' loc_Exact) as [mrs'' e'']. cbn [fst] in H2.
  destruct (shr_m mrs'') as [|p|p]; cbn; try reflexivity; [|lia].
  destruct (Z.leb e'' (emax - prec)); reflexivity.
Qed.

Lemma square_number (x : spec_float) :
  x <> S754_nan -> number_signed false (SF64mul x x).
Proof.
  intros H. destruct x as [s|s| |s m e]; try congruence; cbn.
  - destruct s; reflexivity.
  - destruct s; reflexivity.
  - replace (xorb s s) with false by (destruct s; reflexivity).
    apply binary_round_aux_number. lia.
Qed.

Lemma add_number (a b : spec_float) :
  number_signed false a -> number_signed false b -> number_signed false (SF64add a b).
Proof.
  destruct a as [sa|sa| |sa ma ea], b as [sb|sb| |sb mb eb]; cbn; intros Ha Hb;
    subst; try contradiction; try reflexivity.
  unfold SF64add, SFadd. cbn [cond_Zopp].
  set (ez := Z.min ea eb).
  destruct (shl_align ma ea ez) as [ma' ea'], (shl_align mb eb ez) as [mb' eb'].
  cbn [fst]. cbn [Z.add binary_normalize]. unfold binary_round.
  destruct (shl_align _ _ _) as [mz ez']. apply binary_round_aux_number. lia.
Qed.

Lemma sqrt_number (a : spec_float) :
  number_signed false a -> number_signed false (SF64sqrt a).
Proof.
  destruct a as [s|s| |s m e]; cbn; intros Ha; subst; try contradiction; try reflexivity.
  unfold SF64sqrt, SFsqrt.
  destruct (SFsqrt_core_binary prec emax (Z.pos m) e) as [[mz ez] lz] eqn:E.
  apply binary_round_aux_number.
  unfold SFsqrt_core_binary in E.
  destruct (Z.sqrtrem _) as [q r] eqn:Q in E. injection E as <- _ _.
  pose proof (Z.sqrtrem_sqrt) as Hs.
  match type of Q with Z.sqrtrem ?n = _ => specialize (Hs n); rewrite Q in Hs end.
  cbn [fst] in Hs. subst q. apply Z.sqrt_nonneg.
Qed.

(** Line 136 on two coordinates that are numbers gives a number: a sum of
    squares is never the difference of two infinities nor negative. *)
Lemma radius_number (x y : float) :
  is_nan x = false -> is_nan y = false ->
  is_nan (PrimFloat.sqrt (x * x + y * y)) = false.
Proof.
  intros Hx Hy.
  assert (forall z, is_nan z = false -> Prim2SF z <> S754_nan) as N.
  { intros z Hz E. apply is_nan_SF in E. congruence. }
  destruct (is_nan (PrimFloat.sqrt (x * x + y * y))) eqn:E; [|reflexivity].
  apply is_nan_SF in E.
  rewrite FloatAxioms.sqrt_spec, FloatAxioms.add_spec, !FloatAxioms.mul_spec in E.
  pose proof (sqrt_number _ (add_number _ _ (square_number _ (N x Hx))
                                        (square_number _ (N y Hy)))) as H.
  rewrite E in H. contradiction.
Qed.

(** ** Sides of 2 to 256 pixels *)

(** Lines 131-134 on a side of [n] pixels: the first coordinate is -1, the
    last is 1 and all lie between the two. *)
Definition axis_checked (n : nat) : bool :=
  match normalized_axis n with
  | Ok x => PrimFloat.Leibniz.eqb (nth 0 x nan) (-1) &&
            PrimFloat.Leibniz.eqb (nth (n - 1) x nan) 1 &&
            forallb (fun v => (-1 <=? v) && (v <=? 1)) x
  | Raise _ => false
  end.

Lemma axes_checked : forallb axis_checked (seq 2 255) = true.
Proof. vm_compute. reflexivity. Qed.

Lemma axis_in_range (n : nat) :
  (2 <= n <= 256)%nat ->
  exists x,
    normalized_axis n = Ok x /\ List.length x = n /\
    nth_error x 0 = Some (-1) /\ nth_error x (n - 1) = Some 1 /\
    forall i xi, nth_error x i = Some xi ->
      (-1 <=? xi) = true /\ (xi <=? 1) = true.
Proof.
  intros Hn.
  assert (axis_checked n = true) as H.
  { apply (proj1 (forallb_forall _ _) axes_checked). apply in_seq. lia. }
  unfold axis_checked in H.
  destruct (MaskFacts.normalized_axis_ok n ltac:(lia)) as (x & Hx & Lx).
  rewrite Hx in H. apply andb_true_iff in H. destruct H as [H Hall].
  apply andb_true_iff in H. destruct H as [H0 H1].
  apply FloatAxioms.Leibniz.eqb_spec in H0, H1.
  exists x. split; [exact Hx|]. split; [exact Lx|].
  split; [rewrite <- H0; apply nth_error_nth'; lia|].
  split; [rewrite <- H1; apply nth_error_nth'; lia|].
  intros i xi Hi. apply nth_error_In in Hi.
  apply andb_true_iff. exact (proj1 (forallb_forall _ _) Hall xi Hi).
Qed.

(** X18. For an image whose sides are 2 to 256 pixels long and
    [circ_cut = c <= 1]: each axis runs from exactly -1 at the first pixel
    to exactly 1 at the last and stays between the two, every radius is a
    number, and every cell of the mask holds 0 when [r > 1], 1 when
    [r <= c] and [0.5 + 0.5 * cos (pi * (r - c) / (1 - c))] when
    [c < r <= 1], one of the three holding at each pixel: nothing of what
    [np.empty] left is kept. *)
Theorem mask_on_sides_2_to_256 (L : Libs) (w h : nat) (c : float) :
  (2 <= w <= 256)%nat -> (2 <= h <= 256)%nat -> (c <=? 1) = true ->
  exists x y r mask,
    normalized_axis w = Ok x /\ normalized_axis h = Ok y /\
    radius w h = Ok r /\ circ_cut_mask L w h c = Ok mask /\
    nth_error x 0 = Some (-1) /\ nth_error x (w - 1) = Some 1 /\
    nth_error y 0 = Some (-1) /\ nth_error y (h - 1) = Some 1 /\
    forall i j, (i < w)%nat -> (j < h)%nat ->
      exists xi yj rij aij,
        nth_error x i = Some xi /\ nth_error y j = Some yj /\
        (-1 <=? xi) = true /\ (xi <=? 1) = true /\
        (-1 <=? yj) = true /\ (yj <=? 1) = true /\
        rij = PrimFloat.sqrt (xi * xi + yj * yj) /\
        nth_error r (i * h + j) = Some rij /\
        is_nan rij = false /\
        nth_error mask (i * h + j) = Some aij /\
        (((1 <? rij) = true /\ aij = 0) \/
         ((rij <=? c) = true /\ aij = 1) \/
         ((c <? rij) = true /\ (rij <=? 1) = true /\
          aij = 0.5 + 0.5 * np_cos L ((Np.pi * (rij - c)) / (1 - c)))).
Proof.
  intros Hw Hh Hc.
  destruct (MaskFacts.circ_cut_mask_cells L w h c ltac:(lia) ltac:(lia))
    as (x & y & r & mask & Hx & Hy & Hr & Hm & _ & _ & Hcells).
  destruct (axis_in_range w Hw) as (x' & Hx' & _ & X0 & X1 & Xall).
  destruct (axis_in_range h Hh) as (y' & Hy' & _ & Y0 & Y1 & Yall).
  rewrite Hx in Hx'. injection Hx' as <-. rewrite Hy in Hy'. injection Hy' as <-.
  exists x, y, r, mask.
  split; [exact Hx|]. split; [exact Hy|]. split; [exact Hr|]. split; [exact Hm|].
  split; [exact X0|]. split; [exact X1|]. split; [exact Y0|]. split; [exact Y1|].
  intros i j Hi Hj.
  destruct (Hcells i j Hi Hj) as (xi & yj & Exi & Eyj & Er & Ea).
  destruct (Xall i xi Exi) as [Xlo Xhi]. destruct (Yall j yj Eyj) as [Ylo Yhi].
  assert (is_nan (PrimFloat.sqrt (xi * xi + yj * yj)) = false) as Hnum.
  { apply radius_number; eapply Float64.leb_not_nan_l; eassumption. }
  exists xi, yj, (PrimFloat.sqrt (xi * xi + yj * yj)). eexists.
  split; [exact Exi|]. split; [exact Eyj|].
  split; [exact Xlo|]. split; [exact Xhi|]. split; [exact Ylo|]. split; [exact Yhi|].
  split; [reflexivity|]. split; [exact Er|]. split; [exact Hnum|].
  split; [exact Ea|].
  destruct (cell_cases L c (PrimFloat.sqrt (xi * xi + yj * yj))
                       (np_empty L (i * h + j)) Hc) as [[N _]|[_ H]];
    [congruence | exact H].
Qed.

Lemma mask_on_sides_2_to_256_witness :
  exists x y r mask,
    normalized_axis 4 = Ok x /\ normalized_axis 3 = Ok y /\
    radius 4 3 = Ok r /\ circ_cut_mask (Demo.libs 0) 4 3 0.5 = Ok mask /\
    nth_error x 0 = Some (-1) /\ nth_error x (4 - 1) = Some 1 /\
    nth_error y 0 = Some (-1) /\ nth_error y (3 - 1) = Some 1 /\
    forall i j, (i < 4)%nat -> (j < 3)%nat ->
      exists xi yj rij aij,
        nth_error x i = Some xi /\ nth_error y j = Some yj /\
        (-1 <=? xi) = true /\ (xi <=? 1) = true /\
        (-1 <=? yj) = true /\ (yj <=? 1) = true /\
        rij = PrimFloat.sqrt (xi * xi + yj * yj) /\
        nth_error r (i * 3 + j) = Some rij /\
        is_nan rij = false /\
        nth_error mask (i * 3 + j) = Some aij /\
        (((1 <? rij) = true /\ aij = 0) \/
         ((rij <=? 0.5) = true /\ aij = 1) \/
         ((0.5 <? rij) = true /\ (rij <=? 1) = true /\
          aij = 0.5 + 0.5 * np_cos (Demo.libs 0) ((Np.pi * (rij - 0.5)) / (1 - 0.5)))).
Proof.
  apply (mask_on_sides_2_to_256 (Demo.libs 0) 4 3 0.5); [lia | lia | reflexivity].
Defined.
